(** * Touch gesture classifier and share links of the ggtree scene

    Shallow embedding of [src/components/TouchInput.tsx] (the three touch
    handlers and the refs they mutate) and of the share-link code of
    [src/components/TreeCreator.tsx].

    Numbers: in the handlers a JavaScript [number] is read as a real number
    ([R]); rounding, infinities and NaN of IEEE doubles are outside that
    model.  Where they decide a property, the arithmetic of the handlers is
    embedded a second time on binary64 floats, in [Binary64].  [Date.now()]
    yields integer milliseconds and is read as [Z].  Strings are [string]. *)

From Stdlib Require Import Floats.
From Stdlib Require Import Reals Lra ZArith Lia List String Ascii Bool.
Import ListNotations.
Local Open Scope R_scope.

(** ** JavaScript values and failure *)

(** A handler either completes or throws; the only exception the handlers
    could raise is the [TypeError] of reading a property of [undefined]. *)
Inductive result (A : Type) : Type :=
| Ok (a : A)
| TypeError.
Arguments Ok {A} a.
Arguments TypeError {A}.

(** [{ x: number; y: number }] *)
Module Pt.
Record t : Type := mk { x : R; y : R }.
End Pt.

(** Truthiness of a [string | null]: neither [null] nor the empty string. *)
Definition truthy (o : option string) : bool :=
  match o with Some s => negb (String.eqb s "") | None => false end.

(** The comparison [a > b] on numbers, as a boolean. *)
Definition Rgtb (a b : R) : bool := if Rgt_dec a b then true else false.

(** [Math.hypot(a, b)] *)
Definition hypot (a b : R) : R := sqrt (a * a + b * b).

Module TouchInput.

(** *** State *)

(** The five [useRef] cells of the component. *)
Record Refs : Type := mkRefs {
  lastTouchRef : list Pt.t;
  lastDistRef : option R;
  touchStartTimeRef : Z;
  startTouchPosRef : option Pt.t;
  isDraggingRef : bool
}.

(** The part of [TreeContext] the component reads and writes.  [state] is the
    display mode, compared with the string ['FORMED']. *)
Record Ctx : Type := mkCtx {
  state : string;
  rotationBoost : R;
  panOffset : Pt.t;
  zoomOffset : R;
  pointer : Pt.t;
  clickTrigger : Z;
  selectedPhotoUrl : option string
}.

(** [window.innerWidth], [window.innerHeight] *)
Record Window : Type := mkWindow { innerWidth : R; innerHeight : R }.

(** One call of a context setter, with the value the context holds after it. *)
Inductive Signal : Type :=
| SetRotationBoost (v : R)
| SetPanOffset (v : Pt.t)
| SetZoomOffset (v : R)
| SetPointer (v : Pt.t)
| SetClickTrigger (v : Z).

(** Everything a handler can read or write; [calls] logs the setter calls,
    oldest first. *)
Record World : Type := mkWorld {
  refs : Refs;
  ctx : Ctx;
  window : Window;
  calls : list Signal
}.

(** *** The handler monad: state over [World], with [TypeError] *)

Definition M (A : Type) : Type := World -> result (A * World).

Definition ret {A} (a : A) : M A := fun w => Ok (a, w).

Definition bind {A B} (m : M A) (k : A -> M B) : M B :=
  fun w => match m w with
           | Ok (a, w') => k a w'
           | TypeError => TypeError
           end.

Definition throw {A} : M A := fun _ => TypeError.

Notation "x <- m ;; k" := (bind m (fun x => k))
  (at level 61, m at next level, right associativity).
Notation "m ;;; k" := (bind m (fun _ => k))
  (at level 61, right associativity).

Definition gets {A} (f : World -> A) : M A := fun w => Ok (f w, w).
Definition modify (f : World -> World) : M unit := fun w => Ok (tt, f w).

Definition when (b : bool) (m : M unit) : M unit := if b then m else ret tt.

(** [a[i]] is [undefined] out of range; [.x] and [.y] of [undefined] throw. *)
Definition prop_x (o : option Pt.t) : M R :=
  match o with Some p => ret (Pt.x p) | None => throw end.
Definition prop_y (o : option Pt.t) : M R :=
  match o with Some p => ret (Pt.y p) | None => throw end.

(** *** Writes to the refs *)

Definition set_lastTouch (v : list Pt.t) : M unit :=
  modify (fun w =>
    let r := refs w in
    mkWorld (mkRefs v (lastDistRef r) (touchStartTimeRef r)
                    (startTouchPosRef r) (isDraggingRef r))
            (ctx w) (window w) (calls w)).

Definition set_lastDist (v : option R) : M unit :=
  modify (fun w =>
    let r := refs w in
    mkWorld (mkRefs (lastTouchRef r) v (touchStartTimeRef r)
                    (startTouchPosRef r) (isDraggingRef r))
            (ctx w) (window w) (calls w)).

Definition set_touchStartTime (v : Z) : M unit :=
  modify (fun w =>
    let r := refs w in
    mkWorld (mkRefs (lastTouchRef r) (lastDistRef r) v
                    (startTouchPosRef r) (isDraggingRef r))
            (ctx w) (window w) (calls w)).

Definition set_startTouchPos (v : option Pt.t) : M unit :=
  modify (fun w =>
    let r := refs w in
    mkWorld (mkRefs (lastTouchRef r) (lastDistRef r) (touchStartTimeRef r)
                    v (isDraggingRef r))
            (ctx w) (window w) (calls w)).

Definition set_isDragging (v : bool) : M unit :=
  modify (fun w =>
    let r := refs w in
    mkWorld (mkRefs (lastTouchRef r) (lastDistRef r) (touchStartTimeRef r)
                    (startTouchPosRef r) v)
            (ctx w) (window w) (calls w)).

(** *** Context setters

    A setter given an updater function applies it to the value the context
    holds; each call is logged with the resulting value. *)

Definition setRotationBoost (f : R -> R) : M unit :=
  modify (fun w =>
    let c := ctx w in
    let v := f (rotationBoost c) in
    mkWorld (refs w)
            (mkCtx (state c) v (panOffset c) (zoomOffset c) (pointer c)
                   (clickTrigger c) (selectedPhotoUrl c))
            (window w) (calls w ++ [SetRotationBoost v])).

Definition setPanOffset (f : Pt.t -> Pt.t) : M unit :=
  modify (fun w =>
    let c := ctx w in
    let v := f (panOffset c) in
    mkWorld (refs w)
            (mkCtx (state c) (rotationBoost c) v (zoomOffset c) (pointer c)
                   (clickTrigger c) (selectedPhotoUrl c))
            (window w) (calls w ++ [SetPanOffset v])).

Definition setZoomOffset (f : R -> R) : M unit :=
  modify (fun w =>
    let c := ctx w in
    let v := f (zoomOffset c) in
    mkWorld (refs w)
            (mkCtx (state c) (rotationBoost c) (panOffset c) v (pointer c)
                   (clickTrigger c) (selectedPhotoUrl c))
            (window w) (calls w ++ [SetZoomOffset v])).

Definition setPointer (v : Pt.t) : M unit :=
  modify (fun w =>
    let c := ctx w in
    mkWorld (refs w)
            (mkCtx (state c) (rotationBoost c) (panOffset c) (zoomOffset c) v
                   (clickTrigger c) (selectedPhotoUrl c))
            (window w) (calls w ++ [SetPointer v])).

Definition setClickTrigger (v : Z) : M unit :=
  modify (fun w =>
    let c := ctx w in
    mkWorld (refs w)
            (mkCtx (state c) (rotationBoost c) (panOffset c) (zoomOffset c)
                   (pointer c) v (selectedPhotoUrl c))
            (window w) (calls w ++ [SetClickTrigger v])).

(** *** Constants *)

Definition TAP_THRESHOLD : R := 10.
Definition TAP_TIMEOUT : Z := 300.

(** *** handleTouchStart

    [touches] is [e.touches] mapped to points; [now] is the reading of
    [Date.now()]. *)
Definition handleTouchStart (touches : list Pt.t) (now : Z) : M unit :=
  set_lastTouch touches ;;;
  set_touchStartTime now ;;;
  set_isDragging false ;;;
  if (List.length touches =? 1)%nat then
    set_startTouchPos (nth_error touches 0) ;;;
    x0 <- prop_x (nth_error touches 0) ;;
    W <- gets (fun w => innerWidth (window w)) ;;
    y0 <- prop_y (nth_error touches 0) ;;
    H <- gets (fun w => innerHeight (window w)) ;;
    setPointer (Pt.mk (x0 / W) (y0 / H))
  else if (List.length touches =? 2)%nat then
    x0 <- prop_x (nth_error touches 0) ;;
    x1 <- prop_x (nth_error touches 1) ;;
    y0 <- prop_y (nth_error touches 0) ;;
    y1 <- prop_y (nth_error touches 1) ;;
    set_lastDist (Some (hypot (x0 - x1) (y0 - y1)))
  else ret tt.

(** *** handleTouchMove *)

(** Block 1 of the handler: one finger now and one finger before. *)
Definition singleFinger (touches : list Pt.t) : M unit :=
  last <- gets (fun w => lastTouchRef (refs w)) ;;
  when ((List.length touches =? 1)%nat && (List.length last =? 1)%nat) (
    x0 <- prop_x (nth_error touches 0) ;;
    lx0 <- prop_x (nth_error last 0) ;;
    let dx := x0 - lx0 in
    y0 <- prop_y (nth_error touches 0) ;;
    ly0 <- prop_y (nth_error last 0) ;;
    let dy := y0 - ly0 in
    when (Rgtb (Rabs dx) 2 || Rgtb (Rabs dy) 2) (set_isDragging true) ;;;
    st <- gets (fun w => state (ctx w)) ;;
    (if String.eqb st "FORMED" then
       let sensitivity := 0.5 in
       let boost := dx * sensitivity * 0.05 in
       setRotationBoost (fun prev => Rmax (Rmin (prev - boost) 3.0) (-3.0))
     else
       setPanOffset (fun prev =>
         Pt.mk (Pt.x prev + dx * 0.05) (Pt.y prev - dy * 0.05))) ;;;
    x0' <- prop_x (nth_error touches 0) ;;
    W <- gets (fun w => innerWidth (window w)) ;;
    y0' <- prop_y (nth_error touches 0) ;;
    H <- gets (fun w => innerHeight (window w)) ;;
    setPointer (Pt.mk (x0' / W) (y0' / H))).

(** [lastDistRef.current] used as a number: [null] converts to [0]. *)
Definition toNumber (o : option R) : R :=
  match o with Some d => d | None => 0 end.

Definition notNull {A} (o : option A) : bool :=
  match o with Some _ => true | None => false end.

(** Block 2 of the handler: two fingers now and before, and a stored
    distance. *)
Definition pinchZoom (touches : list Pt.t) : M unit :=
  last <- gets (fun w => lastTouchRef (refs w)) ;;
  ld <- gets (fun w => lastDistRef (refs w)) ;;
  when ((List.length touches =? 2)%nat && (List.length last =? 2)%nat
        && notNull ld) (
    set_isDragging true ;;;
    x0 <- prop_x (nth_error touches 0) ;;
    x1 <- prop_x (nth_error touches 1) ;;
    y0 <- prop_y (nth_error touches 0) ;;
    y1 <- prop_y (nth_error touches 1) ;;
    let dist := hypot (x0 - x1) (y0 - y1) in
    lastDist <- gets (fun w => toNumber (lastDistRef (refs w))) ;;
    let deltaDist := dist - lastDist in
    setZoomOffset (fun prev =>
      let next := prev - deltaDist * 0.05 in
      Rmax (-20) (Rmin next 40)) ;;;
    set_lastDist (Some dist)).

Definition handleTouchMove (touches : list Pt.t) : M unit :=
  singleFinger touches ;;;
  pinchZoom touches ;;;
  set_lastTouch touches.

(** *** handleTouchEnd

    [touches] is [e.touches], the points still down; [now1] and [now2] are
    the two readings of [Date.now()], in program order.  The block under
    [if (selectedPhotoUrl)] is empty in the source. *)
Definition handleTouchEnd (touches : list Pt.t) (now1 now2 : Z) : M unit :=
  start <- gets (fun w => touchStartTimeRef (refs w)) ;;
  let timeSinceStart := (now1 - start)%Z in
  dragging <- gets (fun w => isDraggingRef (refs w)) ;;
  last <- gets (fun w => lastTouchRef (refs w)) ;;
  when (negb dragging && (timeSinceStart <? TAP_TIMEOUT)%Z
        && (List.length last =? 1)%nat) (
    setClickTrigger now2 ;;;
    photo <- gets (fun w => selectedPhotoUrl (ctx w)) ;;
    when (truthy photo) (ret tt)) ;;;
  when (List.length touches =? 0)%nat (set_lastDist None).

(** *** Event streams *)

Inductive Event : Type :=
| TouchStart (touches : list Pt.t) (now : Z)
| TouchMove (touches : list Pt.t)
| TouchEnd (touches : list Pt.t) (now1 now2 : Z).

Definition dispatch (e : Event) : M unit :=
  match e with
  | TouchStart t now => handleTouchStart t now
  | TouchMove t => handleTouchMove t
  | TouchEnd t now1 now2 => handleTouchEnd t now1 now2
  end.

Fixpoint run (es : list Event) : M unit :=
  match es with
  | [] => ret tt
  | e :: es' => dispatch e ;;; run es'
  end.

(** The points an event carries. *)
Definition touchesOf (e : Event) : list Pt.t :=
  match e with
  | TouchStart t _ => t
  | TouchMove t => t
  | TouchEnd t _ _ => t
  end.

(** *** Notions the properties are stated with *)

(** [clamp(v, lo, hi)] as the specification writes it. *)
Definition clamp (v lo hi : R) : R := Rmax lo (Rmin v hi).

Definition isTap (s : Signal) : bool :=
  match s with SetClickTrigger _ => true | _ => false end.

(** The drag test of the single-finger block. *)
Definition movedEnough (p q : Pt.t) : bool :=
  Rgtb (Rabs (Pt.x p - Pt.x q)) 2 || Rgtb (Rabs (Pt.y p - Pt.y q)) 2.

(** Neither block runs: the sample is only recorded. *)
Definition recorded (touches : list Pt.t) (w : World) : World :=
  mkWorld (mkRefs touches (lastDistRef (refs w)) (touchStartTimeRef (refs w))
                  (startTouchPosRef (refs w)) (isDraggingRef (refs w)))
          (ctx w) (window w) (calls w).

(** The test of [handleTouchEnd], on the refs and the first clock reading. *)
Definition tapTest (r : Refs) (now1 : Z) : bool :=
  negb (isDraggingRef r) && (now1 - touchStartTimeRef r <? TAP_TIMEOUT)%Z
  && (List.length (lastTouchRef r) =? 1)%nat.

(** The component as mounted: the initial values of the refs, a context in a
    display mode other than FORMED with all accumulators at zero, and a
    viewport of 1000 by 1000 pixels. *)
Definition initialRefs : Refs := mkRefs [] None 0 None false.

Definition chaosCtx : Ctx :=
  mkCtx "CHAOS" 0 (Pt.mk 0 0) 0 (Pt.mk 0 0) 0 None.

Definition formedCtx : Ctx :=
  mkCtx "FORMED" 0 (Pt.mk 0 0) 0 (Pt.mk 0 0) 0 None.

Definition viewport : Window := mkWindow 1000 1000.

Definition initialWorld : World := mkWorld initialRefs chaosCtx viewport [].

(** Time of the first touch-start of a session. *)
Definition sessionStart (es : list Event) : Z :=
  match es with
  | TouchStart _ now :: _ => now
  | _ => 0
  end.

(** No sample of the session carries more than one point. *)
Definition neverMulti (es : list Event) : bool :=
  forallb (fun e => (List.length (touchesOf e) <=? 1)%nat) es.

(** The tap rule as the specification states it, for the session made of
    [body] followed by the release of the last finger. *)
Definition tapRuleOfSpec (w : World) (body : list Event) (now1 now2 : Z)
  : Prop :=
  match run body w with
  | Ok (_, w1) =>
    match handleTouchEnd [] now1 now2 w1 with
    | Ok (_, w2) =>
      calls w2 = calls w1 ++ [SetClickTrigger now2]
      <-> (isDraggingRef (refs w1) = false
           /\ (now1 - sessionStart body < TAP_TIMEOUT)%Z
           /\ neverMulti body = true)
    | TypeError => False
    end
  | TypeError => False
  end.

(** A session of one finger: it lands on [p] and moves through [qs]. *)
Definition oneFingerSession (p : Pt.t) (t0 : Z) (qs : list Pt.t)
  : list Event :=
  TouchStart [p] t0 :: map (fun q => TouchMove [q]) qs.

(** Two fingers go down one after the other, one lifts, the other moves by
    one pixel and lifts: all within 40 ms. *)
Definition twoFingerSession : list Event :=
  [ TouchStart [Pt.mk 100 100] 0;
    TouchStart [Pt.mk 100 100; Pt.mk 200 100] 10;
    TouchEnd [Pt.mk 100 100] 20 20;
    TouchMove [Pt.mk 101 100] ].

(** [isDragging] after the events [es], when they run without error. *)
Definition draggingAfter (es : list Event) (w : World) : option bool :=
  match run es w with
  | Ok (_, w') => Some (isDraggingRef (refs w'))
  | TypeError => None
  end.

(** Some finger stays down after each event: the session has not ended. *)
Definition sessionOpen (es : list Event) : Prop :=
  Forall (fun e => touchesOf e <> []) es.

(** Monotonicity of [isDragging] as the specification states it: true after a
    prefix of the events, true after every longer prefix. *)
Definition draggingMonotone (w : World) (es : list Event) : Prop :=
  forall n m : nat,
    (n <= m)%nat ->
    draggingAfter (firstn n es) w = Some true ->
    draggingAfter (firstn m es) w = Some true.

(** One finger drags 50 pixels, then a second finger lands. *)
Definition dragThenSecondFinger : list Event :=
  [ TouchStart [Pt.mk 100 100] 0;
    TouchMove [Pt.mk 150 100];
    TouchStart [Pt.mk 150 100; Pt.mk 300 100] 50 ].

Definition isTouchStart (e : Event) : bool :=
  match e with TouchStart _ _ => true | _ => false end.

(** Finger down at (500,500), moved to (520,480), lifted 150 ms after the
    touch-start. *)
Definition dragScenario (t0 now2 : Z) : list Event :=
  [ TouchStart [Pt.mk 500 500] t0;
    TouchMove [Pt.mk 520 480];
    TouchEnd [] (t0 + 150) now2 ].

(** An event cut down to its first two points. *)
Definition firstTwo (e : Event) : Event :=
  match e with
  | TouchStart t now => TouchStart (firstn 2 t) now
  | TouchMove t => TouchMove (firstn 2 t)
  | TouchEnd t now1 now2 => TouchEnd (firstn 2 t) now1 now2
  end.

(** What the sink sees of a run: the context and the setter calls. *)
Definition outcome (es : list Event) (w : World)
  : option (Ctx * list Signal) :=
  match run es w with
  | Ok (_, w') => Some (ctx w', calls w')
  | TypeError => None
  end.

(** The policy as the specification states it: points beyond the first two
    are ignored, the first two are processed. *)
Definition ignoresExtraPoints (w : World) (es : list Event) : Prop :=
  outcome es w = outcome (map firstTwo es) w.

(** Three fingers land together and the second one moves away. *)
Definition threeFingerSpread : list Event :=
  [ TouchStart [Pt.mk 0 0; Pt.mk 100 0; Pt.mk 50 50] 0;
    TouchMove [Pt.mk 0 0; Pt.mk 140 0; Pt.mk 50 50] ].

(** [(x / window.innerWidth, y / window.innerHeight)] *)
Definition normalized (win : Window) (p : Pt.t) : Pt.t :=
  Pt.mk (Pt.x p / innerWidth win) (Pt.y p / innerHeight win).

Definition inUnitSquare (p : Pt.t) : Prop :=
  0 <= Pt.x p <= 1 /\ 0 <= Pt.y p <= 1.

Definition inViewport (win : Window) (p : Pt.t) : Prop :=
  0 <= Pt.x p <= innerWidth win /\ 0 <= Pt.y p <= innerHeight win.

(** The pointer rule as the specification states it, for the single-finger
    move sample [p] taken in the world [w]. *)
Definition pointerRuleOfSpec (w : World) (p : Pt.t) : Prop :=
  match handleTouchMove [p] w with
  | Ok (_, w') =>
    pointer (ctx w') = normalized (window w) p
    /\ inUnitSquare (pointer (ctx w'))
  | TypeError => False
  end.

(** One finger is down at (500,20), 20 pixels below the top edge of the
    1000 by 1000 viewport. *)
Definition fingerNearTop : World :=
  mkWorld (mkRefs [Pt.mk 500 20] None 0 (Some (Pt.mk 500 20)) false)
          chaosCtx viewport [].

(** *** Notions for further properties of the handlers *)

(** Some sample of [qs] lies more than 2 pixels away, on some axis, from the
    sample before it; [p] is the sample before the first one. *)
Fixpoint anyStepMoved (p : Pt.t) (qs : list Pt.t) : bool :=
  match qs with
  | [] => false
  | q :: qs' => movedEnough q p || anyStepMoved q qs'
  end.

(** The distance between two fingers, as both handlers compute it. *)
Definition spread (a b : Pt.t) : R :=
  hypot (Pt.x a - Pt.x b) (Pt.y a - Pt.y b).

(** Two fingers land 100 pixels apart, a third one joins, the second moves
    to 500 pixels from the first, the third lifts, and the two left report
    once more. *)
Definition threeFingerInterlude : list Event :=
  [ TouchStart [Pt.mk 0 0; Pt.mk 100 0] 0;
    TouchStart [Pt.mk 0 0; Pt.mk 100 0; Pt.mk 50 50] 10;
    TouchMove [Pt.mk 0 0; Pt.mk 500 0; Pt.mk 50 50];
    TouchEnd [Pt.mk 0 0; Pt.mk 500 0] 20 20;
    TouchMove [Pt.mk 0 0; Pt.mk 500 0] ].

Definition isZoom (s : Signal) : bool :=
  match s with SetZoomOffset _ => true | _ => false end.

(** A touch-start that carries exactly two points. *)
Definition isTwoPointStart (e : Event) : bool :=
  match e with
  | TouchStart [_; _] _ => true
  | _ => false
  end.

(** The world with another content of [startTouchPosRef]. *)
Definition withStartPos (sp : option Pt.t) (w : World) : World :=
  mkWorld (mkRefs (lastTouchRef (refs w)) (lastDistRef (refs w))
                  (touchStartTimeRef (refs w)) sp (isDraggingRef (refs w)))
          (ctx w) (window w) (calls w).

(** The setter calls one event may make, by kind of event and display
    mode. *)
Definition callsAllowed (formed : bool) (e : Event) (new : list Signal)
  : Prop :=
  match e with
  | TouchStart _ _ => new = [] \/ exists p, new = [SetPointer p]
  | TouchMove _ =>
    new = []
    \/ (formed = true /\ exists r p, new = [SetRotationBoost r; SetPointer p])
    \/ (formed = false /\ exists v p, new = [SetPanOffset v; SetPointer p])
    \/ exists z, new = [SetZoomOffset z]
  | TouchEnd _ _ now2 => new = [] \/ new = [SetClickTrigger now2]
  end.

End TouchInput.

(** ** The share link of [TreeCreator.tsx] *)

Module TreeCreator.
Local Open Scope string_scope.

(** *** Strings *)

Fixpoint drop (n : nat) (s : string) : string :=
  match n, s with
  | O, _ => s
  | S n', String _ r => drop n' r
  | S _, EmptyString => EmptyString
  end.

(** [s.replace(pat, rep)] with a string pattern: the first occurrence of
    [pat] is replaced.  ([rep] is taken literally; the source passes [''].) *)
Fixpoint replace (pat rep s : string) : string :=
  if String.prefix pat s then rep ++ drop (String.length pat) s
  else match s with
       | EmptyString => EmptyString
       | String a r => String a (replace pat rep r)
       end.

(** *** The tree configuration and the component state *)

Record TreeConfig : Type := mkTreeConfig {
  primaryColor : string;
  accentColor : string;
  lightColor : string;
  photoUrl : option string
}.

(** [window.location], as far as the component reads it. *)
Record Location : Type := mkLocation {
  origin : string;
  pathname : string;
  search : string
}.

(** The context value [treeConfig], the two pieces of component state the
    share-link code writes, and the clipboard. *)
Record Comp : Type := mkComp {
  treeConfig : option TreeConfig;
  isPanelOpen : bool;
  shareUrl : option string;
  clipboard : option string
}.

(** *** URLSearchParams

    The parser of [application/x-www-form-urlencoded] of the URL Standard,
    on byte strings: a leading ['?'] is dropped, the rest is split at ['&'],
    empty pieces are skipped, each piece is split at its first ['='], and in
    name and value ['+'] becomes a space and [%XX] the byte [XX]. *)

Fixpoint splitOn (c : ascii) (s : string) : list string :=
  match s with
  | EmptyString => [EmptyString]
  | String a r =>
    if Ascii.eqb a c then EmptyString :: splitOn c r
    else match splitOn c r with
         | piece :: pieces => String a piece :: pieces
         | [] => [String a EmptyString]
         end
  end.

Fixpoint nameValue (s : string) : string * string :=
  match s with
  | EmptyString => (EmptyString, EmptyString)
  | String a r =>
    if Ascii.eqb a "=" then (EmptyString, r)
    else let (n, v) := nameValue r in (String a n, v)
  end.

Definition hexValue (c : ascii) : option N :=
  let n := N_of_ascii c in
  if (48 <=? n)%N && (n <=? 57)%N then Some (n - 48)%N
  else if (65 <=? n)%N && (n <=? 70)%N then Some (n - 55)%N
  else if (97 <=? n)%N && (n <=? 102)%N then Some (n - 87)%N
  else None.

Definition isHexDigit (c : ascii) : bool :=
  match hexValue c with Some _ => true | None => false end.

Fixpoint plusToSpace (s : string) : string :=
  match s with
  | EmptyString => EmptyString
  | String a r => String (if Ascii.eqb a "+" then " "%char else a) (plusToSpace r)
  end.

Fixpoint percentDecode (s : string) : string :=
  match s with
  | EmptyString => EmptyString
  | String a r =>
    match r with
    | String h1 (String h2 r2) =>
      match Ascii.eqb a "%", hexValue h1, hexValue h2 with
      | true, Some v1, Some v2 =>
        String (ascii_of_N (16 * v1 + v2)) (percentDecode r2)
      | _, _, _ => String a (percentDecode r)
      end
    | _ => String a (percentDecode r)
    end
  end.

Definition decode (s : string) : string := percentDecode (plusToSpace s).

Definition URLSearchParams (init : string) : list (string * string) :=
  let query := match init with String "?" r => r | _ => init end in
  map (fun piece => let (n, v) := nameValue piece in (decode n, decode v))
      (filter (fun piece => negb (piece =? "")) (splitOn "&" query)).

(** [params.get(name)]: the first value under [name], or [null]. *)
Fixpoint get (params : list (string * string)) (name : string) : option string :=
  match params with
  | [] => None
  | (n, v) :: rest => if n =? name then Some v else get rest name
  end.

(** *** JavaScript conversions *)

(** A [string | null] under string concatenation. *)
Definition toString (o : option string) : string :=
  match o with Some s => s | None => "null" end.

(** *** The effect run on mount *)

Definition onMount (loc : Location) (c : Comp) : Comp :=
  let params := URLSearchParams (search loc) in
  let c1 := get params "c1" in
  let c2 := get params "c2" in
  let c3 := get params "c3" in
  if truthy c1 && truthy c2 && truthy c3 then
    mkComp (Some (mkTreeConfig ("#" ++ toString c1) ("#" ++ toString c2)
                               ("#" ++ toString c3) None))
           true (shareUrl c) (clipboard c)
  else c.

(** *** generateShareLink *)

Definition shareLink (loc : Location) (cfg : TreeConfig) : string :=
  let c1 := replace "#" "" (primaryColor cfg) in
  let c2 := replace "#" "" (accentColor cfg) in
  let c3 := replace "#" "" (lightColor cfg) in
  origin loc ++ pathname loc ++ "?c1=" ++ c1 ++ "&c2=" ++ c2 ++ "&c3=" ++ c3.

Definition generateShareLink (loc : Location) (c : Comp) : Comp :=
  match treeConfig c with
  | None => c
  | Some cfg =>
    let url := shareLink loc cfg in
    mkComp (treeConfig c) (isPanelOpen c) (Some url) (Some url)
  end.

(** *** Opening a link

    [window.location] of a page opened at [url], for a [url] made of an
    origin, a path, and possibly a query and a fragment: the search is the
    part from the first ['?'] up to the first ['#'], and is empty when there
    is nothing after the ['?']. *)

Fixpoint takeUntil (c : ascii) (s : string) : string :=
  match s with
  | EmptyString => EmptyString
  | String a r => if Ascii.eqb a c then EmptyString else String a (takeUntil c r)
  end.

Fixpoint queryOf (url : string) : string :=
  match url with
  | EmptyString => EmptyString
  | String a r =>
    if Ascii.eqb a "#" then EmptyString
    else if Ascii.eqb a "?" then takeUntil "#" r
    else queryOf r
  end.

Definition searchOf (url : string) : string :=
  let q := queryOf url in
  if q =? "" then "" else String "?" q.

Definition openAt (loc : Location) (url : string) : Location :=
  mkLocation (origin loc) (pathname loc) (searchOf url).

(** *** Colours *)

Fixpoint allChars (f : ascii -> bool) (s : string) : bool :=
  match s with
  | EmptyString => true
  | String a r => f a && allChars f r
  end.

(** ['#'] followed by one or more hexadecimal digits. *)
Definition hexColor (s : string) : bool :=
  match s with
  | String "#" (String a r) => isHexDigit a && allChars isHexDigit r
  | _ => false
  end.

Definition hasNone (c : ascii) (s : string) : bool :=
  allChars (fun a => negb (Ascii.eqb a c)) s.

(** The query of a share link and its three parameters. *)
Definition linkQuery (h1 h2 h3 : string) : string :=
  "c1=" ++ h1 ++ "&c2=" ++ h2 ++ "&c3=" ++ h3.

(** *** Notions for further properties of the share link *)

(** At least one character, all of them hexadecimal digits. *)
Definition hexDigits (s : string) : bool :=
  negb (s =? "") && allChars isHexDigit s.

(** A query written out: [name=value] pieces with ['&'] between them. *)
Fixpoint joinWith (sep : string) (pieces : list string) : string :=
  match pieces with
  | [] => ""
  | [piece] => piece
  | piece :: rest => piece ++ sep ++ joinWith sep rest
  end.

Definition writeQuery (params : list (string * string)) : string :=
  joinWith "&" (map (fun nv => fst nv ++ "=" ++ snd nv) params).

(** Names and values that the query syntax leaves as they are. *)
Definition plainName (s : string) : bool :=
  hasNone "&" s && hasNone "=" s && hasNone "+" s && hasNone "%" s.

Definition plainValue (s : string) : bool :=
  hasNone "&" s && hasNone "+" s && hasNone "%" s.

Definition plainParam (nv : string * string) : bool :=
  plainName (fst nv) && plainValue (snd nv).

(** *** handleFileChange

    [analyzeImage] comes from [../utils/analyzeImage], which is not among
    these sources: the outcome of its promise for the chosen file is a
    parameter.  The handler is split where it awaits: [beginUpload] is the
    part before, [settleUpload] the part after, each applied to the state it
    finds.  [colors[i]] of a palette shorter than three would put [undefined]
    into the configuration, which [TreeConfig] cannot hold: the result is
    then [None]. *)








End TreeCreator.

(** ** The arithmetic of [TouchInput.tsx] on doubles

    The number expressions of [handleTouchStart] and [handleTouchMove] on
    binary64 floats, as JavaScript evaluates them: a decimal literal denotes
    the nearest double, and every operation rounds to nearest. *)

#[local] Set Warnings "-inexact-float".

Module Binary64.
Local Open Scope float_scope.

(** [{ x: number; y: number }] *)
Module Pt64.
Record t : Type := mk { x : float; y : float }.
End Pt64.

(** [Math.min(a, b)]: NaN when an argument is NaN; -0 is below +0. *)
Definition Math_min (a b : float) : float :=
  if is_nan a || is_nan b then nan
  else if a <? b then a
  else if b <? a then b
  else if get_sign a then a else b.

(** [Math.max(a, b)]: NaN when an argument is NaN; +0 is above -0. *)
Definition Math_max (a b : float) : float :=
  if is_nan a || is_nan b then nan
  else if a <? b then b
  else if b <? a then a
  else if get_sign a then b else a.

(** [Math.hypot(a, b)]: +Infinity when an argument is infinite, otherwise NaN
    when one is NaN, otherwise the square root of the sum of squares, which
    the language leaves to the implementation up to approximation and which
    is taken here as computed in doubles. *)
Definition Math_hypot (a b : float) : float :=
  if is_infinity a || is_infinity b then infinity
  else if is_nan a || is_nan b then nan
  else PrimFloat.sqrt (a * a + b * b).

(** The distance both handlers compute from two touch points. *)
Definition separation (t0 t1 : Pt64.t) : float :=
  Math_hypot (Pt64.x t0 - Pt64.x t1) (Pt64.y t0 - Pt64.y t1).

(** The updater handed to [setRotationBoost], for a horizontal delta [dx]. *)
Definition rotationUpdate (dx prev : float) : float :=
  let sensitivity := 0.5 in
  let boost := dx * sensitivity * 0.05 in
  Math_max (Math_min (prev - boost) 3.0) (-3.0).

(** The updater handed to [setZoomOffset], for a change of distance
    [deltaDist]. *)
Definition zoomUpdate (deltaDist prev : float) : float :=
  let next := prev - deltaDist * 0.05 in
  Math_max (-20) (Math_min next 40).

(** The pinch block on two touch points, with the stored distance
    [lastDist]: the new zoom offset. *)
Definition pinchZoom (lastDist : float) (t0 t1 : Pt64.t) (prev : float)
  : float :=
  let dist := separation t0 t1 in
  let deltaDist := dist - lastDist in
  zoomUpdate deltaDist prev.

(** [lo <= v <= hi], which is false of NaN. *)
Definition inRange (lo hi v : float) : bool := (lo <=? v) && (v <=? hi).

(** The range of the zoom accumulator as the specification states it, after
    a pinch sample. *)
Definition zoomClampedOfSpec (lastDist : float) (t0 t1 : Pt64.t)
    (prev : float) : Prop :=
  inRange (-20) 40 (pinchZoom lastDist t0 t1 prev) = true.

(** Two touch points so far apart that their horizontal distance is beyond
    the largest double. *)
Definition farLeft : Pt64.t := Pt64.mk (-1.7e308) 0.
Definition farRight : Pt64.t := Pt64.mk 1.7e308 0.

(** The direction of the pinch zoom as the specification states it: a
    positive change makes the accumulator strictly smaller or leaves it at
    -20, a negative one makes it strictly larger or leaves it at 40. *)
Definition pinchDirectionOfSpec (lastDist : float) (t0 t1 : Pt64.t)
    (prev : float) : Prop :=
  let deltaDist := separation t0 t1 - lastDist in
  let new := pinchZoom lastDist t0 t1 prev in
  ((0 <? deltaDist) = true -> (new <? prev) = true \/ (new =? -20) = true)
  /\ ((deltaDist <? 0) = true -> (prev <? new) = true \/ (new =? 40) = true).

End Binary64.

(** * Properties of the touch handlers *)

Module TouchInputSpec.
Import TouchInput.

(** ** Unfolding the handlers *)

Ltac unfold_handlers :=
  cbv [handleTouchStart handleTouchMove handleTouchEnd singleFinger pinchZoom
       bind ret gets modify when throw prop_x prop_y toNumber notNull
       set_lastTouch set_lastDist set_touchStartTime set_startTouchPos
       set_isDragging setRotationBoost setPanOffset setZoomOffset setPointer
       setClickTrigger
       refs ctx window calls
       lastTouchRef lastDistRef touchStartTimeRef startTouchPosRef
       isDraggingRef
       state rotationBoost panOffset zoomOffset pointer clickTrigger
       selectedPhotoUrl innerWidth innerHeight
       List.length Nat.eqb andb nth_error].

Ltac open_world w :=
  destruct w as [[lt ld st sp dr] [s rb po zo ptr ck ph] [W H] cs].

Lemma Rgtb_true a b : a > b -> Rgtb a b = true.
Proof. intros L; unfold Rgtb; destruct (Rgt_dec a b); [reflexivity | contradiction]. Qed.

Lemma Rgtb_false a b : a <= b -> Rgtb a b = false.
Proof. intros L; unfold Rgtb; destruct (Rgt_dec a b); [lra | reflexivity]. Qed.

Lemma clamp_bounds v lo hi : lo <= hi -> lo <= clamp v lo hi <= hi.
Proof.
  intros L; unfold clamp, Rmax, Rmin.
  destruct (Rle_dec v hi); destruct (Rle_dec lo _); lra.
Qed.

Lemma clamp_inside_range lo hi v : lo <= v <= hi -> Rmax lo (Rmin v hi) = v.
Proof.
  intros B. unfold Rmax, Rmin.
  destruct (Rle_dec v hi); destruct (Rle_dec lo _); lra.
Qed.

Lemma rotation_update_is_clamp v : Rmax (Rmin v 3.0) (-3.0) = clamp v (-3.0) 3.0.
Proof. unfold clamp; apply Rmax_comm. Qed.

Lemma movedEnough_x p q : Rabs (Pt.x p - Pt.x q) > 2 -> movedEnough p q = true.
Proof. intros G; unfold movedEnough; rewrite (Rgtb_true _ _ G); reflexivity. Qed.

(** *** The three ways a move sample is processed *)

Lemma move_single p q w :
  lastTouchRef (refs w) = [q] ->
  exists w',
    handleTouchMove [p] w = Ok (tt, w')
    /\ refs w' = mkRefs [p] (lastDistRef (refs w)) (touchStartTimeRef (refs w))
                        (startTouchPosRef (refs w))
                        (movedEnough p q || isDraggingRef (refs w))
    /\ window w' = window w
    /\ pointer (ctx w')
       = Pt.mk (Pt.x p / innerWidth (window w)) (Pt.y p / innerHeight (window w))
    /\ zoomOffset (ctx w') = zoomOffset (ctx w)
    /\ state (ctx w') = state (ctx w)
    /\ clickTrigger (ctx w') = clickTrigger (ctx w)
    /\ (if String.eqb (state (ctx w)) "FORMED"
        then rotationBoost (ctx w')
             = Rmax (Rmin (rotationBoost (ctx w)
                           - (Pt.x p - Pt.x q) * 0.5 * 0.05) 3.0) (-3.0)
             /\ panOffset (ctx w') = panOffset (ctx w)
             /\ calls w' = calls w
                  ++ [SetRotationBoost (rotationBoost (ctx w'));
                      SetPointer (pointer (ctx w'))]
        else panOffset (ctx w')
             = Pt.mk (Pt.x (panOffset (ctx w)) + (Pt.x p - Pt.x q) * 0.05)
                     (Pt.y (panOffset (ctx w)) - (Pt.y p - Pt.y q) * 0.05)
             /\ rotationBoost (ctx w') = rotationBoost (ctx w)
             /\ calls w' = calls w
                  ++ [SetPanOffset (panOffset (ctx w'));
                      SetPointer (pointer (ctx w'))]).
Proof.
  open_world w. cbn [refs lastTouchRef]. intros ->.
  unfold movedEnough. unfold_handlers.
  destruct (Rgtb _ _ || Rgtb _ _)%bool; destruct (String.eqb s "FORMED");
    eexists; (split; [reflexivity|]); cbn; rewrite <- ?app_assoc;
    repeat split; reflexivity.
Qed.

Lemma move_pinch p1 p2 q1 q2 d w :
  lastTouchRef (refs w) = [q1; q2] ->
  lastDistRef (refs w) = Some d ->
  let dist := hypot (Pt.x p1 - Pt.x p2) (Pt.y p1 - Pt.y p2) in
  exists w',
    handleTouchMove [p1; p2] w = Ok (tt, w')
    /\ refs w' = mkRefs [p1; p2] (Some dist) (touchStartTimeRef (refs w))
                        (startTouchPosRef (refs w)) true
    /\ window w' = window w
    /\ zoomOffset (ctx w')
       = Rmax (-20) (Rmin (zoomOffset (ctx w) - (dist - d) * 0.05) 40)
    /\ rotationBoost (ctx w') = rotationBoost (ctx w)
    /\ panOffset (ctx w') = panOffset (ctx w)
    /\ pointer (ctx w') = pointer (ctx w)
    /\ state (ctx w') = state (ctx w)
    /\ clickTrigger (ctx w') = clickTrigger (ctx w)
    /\ calls w' = calls w ++ [SetZoomOffset (zoomOffset (ctx w'))].
Proof.
  open_world w. cbn [refs lastTouchRef lastDistRef]. intros -> ->.
  unfold_handlers. eexists; split; [reflexivity|]. cbn.
  repeat split; reflexivity.
Qed.

Lemma move_other touches w :
  (List.length touches <> List.length (lastTouchRef (refs w))
   \/ (2 < List.length touches)%nat
   \/ touches = []
   \/ (List.length touches = 2%nat /\ lastDistRef (refs w) = None)) ->
  handleTouchMove touches w = Ok (tt, recorded touches w).
Proof.
  open_world w. cbn [refs lastTouchRef lastDistRef]. unfold recorded.
  intros Hc.
  destruct touches as [|p1 [|p2 [|p3 t]]]; destruct lt as [|q1 [|q2 [|q3 l]]];
    unfold_handlers; try reflexivity;
    try (exfalso; cbn in Hc; destruct Hc as [Hc|[Hc|[Hc|[Hc Hd]]]];
         first [congruence | lia | discriminate]);
    destruct ld; try reflexivity;
    exfalso; cbn in Hc; destruct Hc as [Hc|[Hc|[Hc|[Hc Hd]]]];
    first [congruence | lia | discriminate].
Qed.

Lemma move_cases touches w :
  (exists p q, touches = [p] /\ lastTouchRef (refs w) = [q])
  \/ (exists p1 p2 q1 q2 d,
        touches = [p1; p2] /\ lastTouchRef (refs w) = [q1; q2]
        /\ lastDistRef (refs w) = Some d)
  \/ handleTouchMove touches w = Ok (tt, recorded touches w).
Proof.
  destruct (Nat.eq_dec (List.length touches)
                       (List.length (lastTouchRef (refs w)))) as [E|N].
  2:{ right; right. apply move_other. left; exact N. }
  destruct touches as [|p1 [|p2 [|p3 t]]].
  - right; right. apply move_other. right; right; left; reflexivity.
  - destruct (lastTouchRef (refs w)) as [|q1 [|q2 l]]; try discriminate.
    left. exists p1, q1. split; reflexivity.
  - destruct (lastTouchRef (refs w)) as [|q1 [|q2 [|q3 l]]]; try discriminate.
    destruct (lastDistRef (refs w)) as [d|] eqn:D.
    + right; left. exists p1, p2, q1, q2, d. repeat split; reflexivity.
    + right; right. apply move_other.
      right; right; right. split; [reflexivity | exact D].
  - right; right. apply move_other. right; left; cbn; lia.
Qed.

(** *** Touch start and touch end *)

Lemma start_single p now w :
  exists w',
    handleTouchStart [p] now w = Ok (tt, w')
    /\ refs w' = mkRefs [p] (lastDistRef (refs w)) now (Some p) false
    /\ window w' = window w
    /\ pointer (ctx w')
       = Pt.mk (Pt.x p / innerWidth (window w)) (Pt.y p / innerHeight (window w))
    /\ rotationBoost (ctx w') = rotationBoost (ctx w)
    /\ panOffset (ctx w') = panOffset (ctx w)
    /\ zoomOffset (ctx w') = zoomOffset (ctx w)
    /\ state (ctx w') = state (ctx w)
    /\ clickTrigger (ctx w') = clickTrigger (ctx w)
    /\ calls w' = calls w ++ [SetPointer (pointer (ctx w'))].
Proof.
  open_world w. unfold_handlers. eexists; split; [reflexivity|]. cbn.
  repeat split; reflexivity.
Qed.

Lemma start_pair p1 p2 now w :
  handleTouchStart [p1; p2] now w
  = Ok (tt, mkWorld (mkRefs [p1; p2]
                       (Some (hypot (Pt.x p1 - Pt.x p2) (Pt.y p1 - Pt.y p2)))
                       now (startTouchPosRef (refs w)) false)
                    (ctx w) (window w) (calls w)).
Proof. open_world w. reflexivity. Qed.

Lemma start_other touches now w :
  (touches = [] \/ (2 < List.length touches)%nat) ->
  handleTouchStart touches now w
  = Ok (tt, mkWorld (mkRefs touches (lastDistRef (refs w)) now
                            (startTouchPosRef (refs w)) false)
                    (ctx w) (window w) (calls w)).
Proof.
  open_world w. intros Hc.
  destruct touches as [|p1 [|p2 [|p3 t]]]; try reflexivity;
    exfalso; cbn in Hc; destruct Hc; first [discriminate | lia].
Qed.

Lemma end_spec touches now1 now2 w :
  handleTouchEnd touches now1 now2 w
  = Ok (tt,
        mkWorld
          (mkRefs (lastTouchRef (refs w))
                  (if (List.length touches =? 0)%nat then None
                   else lastDistRef (refs w))
                  (touchStartTimeRef (refs w)) (startTouchPosRef (refs w))
                  (isDraggingRef (refs w)))
          (if tapTest (refs w) now1
           then mkCtx (state (ctx w)) (rotationBoost (ctx w))
                      (panOffset (ctx w)) (zoomOffset (ctx w))
                      (pointer (ctx w)) now2 (selectedPhotoUrl (ctx w))
           else ctx w)
          (window w)
          (if tapTest (refs w) now1
           then calls w ++ [SetClickTrigger now2] else calls w)).
Proof.
  open_world w. unfold tapTest. cbn [refs ctx isDraggingRef touchStartTimeRef lastTouchRef].
  unfold handleTouchEnd, bind, gets, when.
  cbn [refs ctx isDraggingRef touchStartTimeRef lastTouchRef fst snd].
  destruct (negb dr && _ && _)%bool; destruct (List.length touches =? 0)%nat;
    try reflexivity; cbn; destruct (truthy ph); reflexivity.
Qed.

(** *** No handler throws *)

Lemma handleTouchStart_total touches now w :
  exists w', handleTouchStart touches now w = Ok (tt, w').
Proof.
  destruct touches as [|p1 [|p2 [|p3 t]]].
  - rewrite start_other by (left; reflexivity). eauto.
  - destruct (start_single p1 now w) as (w' & E & _). eauto.
  - rewrite start_pair. eauto.
  - rewrite start_other by (right; cbn; lia). eauto.
Qed.

Lemma handleTouchMove_total touches w :
  exists w', handleTouchMove touches w = Ok (tt, w').
Proof.
  destruct (move_cases touches w)
    as [(p & q & -> & L)|[(p1 & p2 & q1 & q2 & d & -> & L & D)|E]].
  - destruct (move_single p q w L) as (w' & E & _). eauto.
  - destruct (move_pinch p1 p2 q1 q2 d w L D) as (w' & E & _). eauto.
  - eauto.
Qed.

Lemma handleTouchEnd_total touches now1 now2 w :
  exists w', handleTouchEnd touches now1 now2 w = Ok (tt, w').
Proof. rewrite end_spec. eauto. Qed.

Lemma dispatch_total e w : exists w', dispatch e w = Ok (tt, w').
Proof.
  destruct e; cbn [dispatch];
    [apply handleTouchStart_total | apply handleTouchMove_total
     | apply handleTouchEnd_total].
Qed.

Lemma run_cons e es w w1 :
  dispatch e w = Ok (tt, w1) -> run (e :: es) w = run es w1.
Proof. intros E. cbn [run]. unfold bind. rewrite E. reflexivity. Qed.

Lemma run_start t now es w w1 :
  handleTouchStart t now w = Ok (tt, w1) ->
  run (TouchStart t now :: es) w = run es w1.
Proof. apply (run_cons (TouchStart t now)). Qed.

Lemma run_move t es w w1 :
  handleTouchMove t w = Ok (tt, w1) -> run (TouchMove t :: es) w = run es w1.
Proof. apply (run_cons (TouchMove t)). Qed.

Lemma run_end t now1 now2 es w w1 :
  handleTouchEnd t now1 now2 w = Ok (tt, w1) ->
  run (TouchEnd t now1 now2 :: es) w = run es w1.
Proof. apply (run_cons (TouchEnd t now1 now2)). Qed.

Lemma run_total es : forall w, exists w', run es w = Ok (tt, w').
Proof.
  induction es as [|e es IH]; intros w.
  - exists w. reflexivity.
  - destruct (dispatch_total e w) as (w1 & E).
    rewrite (run_cons _ _ _ _ E). apply IH.
Qed.

(** ** C1: tap recognition *)

Lemma tapTest_true r now1 :
  tapTest r now1 = true
  <-> isDraggingRef r = false
      /\ (now1 - touchStartTimeRef r < 300)%Z
      /\ List.length (lastTouchRef r) = 1%nat.
Proof.
  unfold tapTest, TAP_TIMEOUT.
  rewrite !andb_true_iff, negb_true_iff, Z.ltb_lt, Nat.eqb_eq. tauto.
Qed.

Lemma snoc_neq {A} (l : list A) (a : A) : l <> l ++ [a].
Proof.
  intros E. apply (f_equal (@List.length _)) in E.
  rewrite length_app in E. cbn in E. lia.
Qed.

Lemma run_one_finger_moves qs :
  forall w,
    List.length (lastTouchRef (refs w)) = 1%nat ->
    exists w',
      run (map (fun q => TouchMove [q]) qs) w = Ok (tt, w')
      /\ List.length (lastTouchRef (refs w')) = 1%nat
      /\ touchStartTimeRef (refs w') = touchStartTimeRef (refs w).
Proof.
  induction qs as [|q qs IH]; intros w L.
  - exists w. split; [reflexivity|]. split; [exact L | reflexivity].
  - destruct (lastTouchRef (refs w)) as [|q0 [|q1 l]] eqn:Lq;
      try discriminate.
    destruct (move_single q q0 w Lq) as (w1 & E1 & R1 & _).
    destruct (IH w1) as (w' & E & L' & T'); [rewrite R1; reflexivity|].
    exists w'. cbn [map]. rewrite (run_move _ _ _ _ E1).
    split; [exact E|]. split; [exact L'|].
    rewrite T', R1. reflexivity.
Qed.

Lemma neverMulti_oneFingerSession p t0 qs :
  neverMulti (oneFingerSession p t0 qs) = true.
Proof.
  unfold neverMulti, oneFingerSession. cbn [forallb touchesOf].
  induction qs as [|q qs IH]; [reflexivity | exact IH].
Qed.

(** C1 (as amended).  [handleTouchEnd] never throws, and it emits the tap
    signal, [clickTrigger] set to the second clock reading, if and only if
    [isDragging] is false, the time since the latest touch-start is below 300
    and the latest recorded sample has exactly one point; otherwise it emits
    nothing.  For a session of one finger that lands, moves and lifts, this is
    the rule of the specification: a tap at release if and only if
    [isDragging] is false and the time since the start of the session is
    below 300. *)
Theorem C1_tap_iff_last_sample_single touches now1 now2 w :
  (exists w',
     handleTouchEnd touches now1 now2 w = Ok (tt, w')
     /\ (calls w' = calls w ++ [SetClickTrigger now2]
         /\ clickTrigger (ctx w') = now2
         \/ calls w' = calls w /\ ctx w' = ctx w)
     /\ (calls w' = calls w ++ [SetClickTrigger now2]
         <-> isDraggingRef (refs w) = false
             /\ (now1 - touchStartTimeRef (refs w) < 300)%Z
             /\ List.length (lastTouchRef (refs w)) = 1%nat))
  /\ (forall p t0 qs,
        tapRuleOfSpec w (oneFingerSession p t0 qs) now1 now2).
Proof.
  split.
  - rewrite end_spec. eexists; split; [reflexivity|]. cbn [calls ctx].
    rewrite <- tapTest_true.
    destruct (tapTest (refs w) now1).
    + split; [left; split; reflexivity|]. split; reflexivity.
    + split; [right; split; reflexivity|].
      split; intros E; [exfalso; exact (snoc_neq _ _ E) | discriminate].
  - intros p t0 qs. unfold tapRuleOfSpec.
    rewrite neverMulti_oneFingerSession. unfold oneFingerSession.
    destruct (start_single p t0 w) as (w0 & E0 & R0 & _).
    destruct (run_one_finger_moves qs w0) as (w1 & E1 & L1 & T1);
      [rewrite R0; reflexivity|].
    rewrite (run_start _ _ _ _ _ E0), E1, end_spec.
    cbn [calls sessionStart].
    assert (T : tapTest (refs w1) now1 = true
                <-> isDraggingRef (refs w1) = false
                    /\ (now1 - t0 < TAP_TIMEOUT)%Z /\ true = true).
    { rewrite tapTest_true, T1, R0. cbn [touchStartTimeRef].
      unfold TAP_TIMEOUT. tauto. }
    rewrite <- T. destruct (tapTest (refs w1) now1).
    + split; reflexivity.
    + split; intros E; [exfalso; exact (snoc_neq _ _ E) | discriminate].
Qed.

(** C1 (counterexample).  In [twoFingerSession] two points were active, yet
    the release of the last finger, 30 ms after the second touch-start, emits
    the tap. *)
Lemma C1_counterexample_two_finger_tap :
  ~ tapRuleOfSpec initialWorld twoFingerSession 40 40.
Proof.
  unfold tapRuleOfSpec.
  assert (E : run twoFingerSession initialWorld
              = Ok (tt, mkWorld
                          (mkRefs [Pt.mk 101 100]
                                  (Some (hypot (100 - 200) (100 - 100)))
                                  10 (Some (Pt.mk 100 100)) false)
                          (mkCtx "CHAOS" 0 (Pt.mk 0 0) 0
                                 (Pt.mk (100 / 1000) (100 / 1000)) 0 None)
                          viewport
                          [SetPointer (Pt.mk (100 / 1000) (100 / 1000))]))
    by reflexivity.
  rewrite E. rewrite end_spec.
  intros [Hc _]. cbn in Hc.
  destruct (Hc eq_refl) as (_ & _ & F). discriminate.
Qed.

(** ** C2: [isDragging] within a session *)

Lemma dispatch_keeps_dragging e w w' :
  isTouchStart e = false ->
  dispatch e w = Ok (tt, w') ->
  isDraggingRef (refs w) = true -> isDraggingRef (refs w') = true.
Proof.
  destruct e as [t now|t|t now1 now2]; cbn [isTouchStart dispatch];
    [discriminate| |]; intros _ E D.
  - destruct (move_cases t w)
      as [(p & q & -> & L)|[(p1 & p2 & q1 & q2 & d & -> & L & Ld)|E0]].
    + destruct (move_single p q w L) as (w1 & E1 & R1 & _).
      rewrite E1 in E. injection E as <-. rewrite R1. cbn [isDraggingRef].
      rewrite D. apply orb_true_r.
    + destruct (move_pinch p1 p2 q1 q2 d w L Ld) as (w1 & E1 & R1 & _).
      rewrite E1 in E. injection E as <-. rewrite R1. reflexivity.
    + rewrite E0 in E. injection E as <-. exact D.
  - rewrite end_spec in E. injection E as <-. exact D.
Qed.

Lemma run_keeps_dragging es :
  forallb (fun e => negb (isTouchStart e)) es = true ->
  forall w, isDraggingRef (refs w) = true ->
  exists w', run es w = Ok (tt, w') /\ isDraggingRef (refs w') = true.
Proof.
  induction es as [|e es IH]; intros F w D.
  - exists w. split; [reflexivity | exact D].
  - cbn [forallb] in F. apply andb_true_iff in F as [Fe Fs].
    apply negb_true_iff in Fe.
    destruct (dispatch_total e w) as (w1 & E1).
    rewrite (run_cons _ _ _ _ E1).
    apply IH; [exact Fs|].
    exact (dispatch_keeps_dragging e w w1 Fe E1 D).
Qed.

Lemma start_clears_dragging touches now w :
  exists w',
    handleTouchStart touches now w = Ok (tt, w')
    /\ isDraggingRef (refs w') = false.
Proof.
  destruct touches as [|p1 [|p2 [|p3 t]]].
  - rewrite start_other by (left; reflexivity). eauto.
  - destruct (start_single p1 now w) as (w' & E & R & _).
    exists w'. split; [exact E | rewrite R; reflexivity].
  - rewrite start_pair. eauto.
  - rewrite start_other by (right; cbn; lia). eauto.
Qed.

(** C2 (as amended).  Over every sequence of touch-move and touch-end events,
    with no touch-start among them, the handlers run without error and
    [isDragging], once true, is still true at the end.  Every touch-start,
    whatever the points it carries and whatever the state, leaves
    [isDragging] false. *)
Theorem C2_dragging_kept_without_touch_start es touches now w :
  (forallb (fun e => negb (isTouchStart e)) es = true ->
   isDraggingRef (refs w) = true ->
   exists w', run es w = Ok (tt, w') /\ isDraggingRef (refs w') = true)
  /\ (exists w',
        handleTouchStart touches now w = Ok (tt, w')
        /\ isDraggingRef (refs w') = false).
Proof.
  split.
  - intros F D. exact (run_keeps_dragging es F w D).
  - apply start_clears_dragging.
Qed.

Lemma C2_dragging_kept_without_touch_start_witness :
  (exists w',
     run [TouchMove [Pt.mk 150 100]; TouchEnd [] 200 200]
         (mkWorld (mkRefs [Pt.mk 150 100] None 0 (Some (Pt.mk 100 100)) true)
                  chaosCtx viewport [])
     = Ok (tt, w')
     /\ isDraggingRef (refs w') = true)
  /\ (exists w',
        handleTouchStart [Pt.mk 150 100; Pt.mk 300 100] 50
          (mkWorld (mkRefs [Pt.mk 150 100] None 0 (Some (Pt.mk 100 100)) true)
                   chaosCtx viewport [])
        = Ok (tt, w')
        /\ isDraggingRef (refs w') = false).
Proof.
  destruct (C2_dragging_kept_without_touch_start
              [TouchMove [Pt.mk 150 100]; TouchEnd [] 200 200]
              [Pt.mk 150 100; Pt.mk 300 100] 50
              (mkWorld (mkRefs [Pt.mk 150 100] None 0 (Some (Pt.mk 100 100))
                               true)
                       chaosCtx viewport []))
    as (Kept & Reset).
  split; [exact (Kept eq_refl eq_refl) | exact Reset].
Defined.

(** C2 (counterexample).  In [dragThenSecondFinger] a finger stays down after
    every event; [isDragging] is true after the move and false again after
    the second finger's touch-start. *)
Lemma C2_counterexample_reset_by_second_finger :
  sessionOpen dragThenSecondFinger
  /\ ~ draggingMonotone initialWorld dragThenSecondFinger.
Proof.
  split.
  - unfold sessionOpen, dragThenSecondFinger.
    repeat constructor; cbn; discriminate.
  - intros Mono. specialize (Mono 2%nat 3%nat ltac:(lia)).
    unfold draggingAfter, dragThenSecondFinger in Mono. cbn [firstn] in Mono.
    destruct (start_single (Pt.mk 100 100) 0 initialWorld)
      as (w1 & E1 & R1 & _).
    assert (L1 : lastTouchRef (refs w1) = [Pt.mk 100 100])
      by (rewrite R1; reflexivity).
    destruct (move_single (Pt.mk 150 100) (Pt.mk 100 100) w1 L1)
      as (w2 & E2 & R2 & _).
    rewrite !(run_start _ _ _ _ _ E1), !(run_move _ _ _ _ E2) in Mono.
    rewrite (run_start _ _ _ _ _ (start_pair _ _ _ w2)) in Mono.
    cbn [run ret refs isDraggingRef] in Mono.
    rewrite R2 in Mono. cbn [isDraggingRef] in Mono.
    rewrite movedEnough_x in Mono
      by (cbn [Pt.x]; unfold Rabs; destruct (Rcase_abs _); lra).
    specialize (Mono eq_refl). discriminate.
Qed.

(** ** C4: rotation in FORMED mode *)

(** C4.  In FORMED mode, when the sample and the previous sample both have
    exactly one point, the handler runs without error and the new rotation
    accumulator is [clamp (previous - dx * 0.5 * 0.05) (-3.0) 3.0], with [dx]
    the horizontal distance between the two points; this value is the one
    passed on through [setRotationBoost]. *)
Theorem C4_formed_rotation p q w :
  state (ctx w) = "FORMED"%string ->
  lastTouchRef (refs w) = [q] ->
  let dx := Pt.x p - Pt.x q in
  exists w',
    handleTouchMove [p] w = Ok (tt, w')
    /\ rotationBoost (ctx w')
       = clamp (rotationBoost (ctx w) - dx * 0.5 * 0.05) (-3.0) 3.0
    /\ In (SetRotationBoost (rotationBoost (ctx w'))) (calls w').
Proof.
  intros S L dx.
  destruct (move_single p q w L) as (w' & E & _ & _ & _ & _ & _ & _ & F).
  rewrite S in F. cbn in F. destruct F as (Rb & _ & C).
  exists w'. split; [exact E|]. split.
  - rewrite Rb. apply rotation_update_is_clamp.
  - rewrite C. apply in_or_app. right. left. reflexivity.
Qed.

Lemma C4_formed_rotation_witness :
  exists w',
    handleTouchMove [Pt.mk 140 100]
      (mkWorld (mkRefs [Pt.mk 100 100] None 0 (Some (Pt.mk 100 100)) false)
               formedCtx viewport [])
    = Ok (tt, w')
    /\ rotationBoost (ctx w')
       = clamp (0 - (140 - 100) * 0.5 * 0.05) (-3.0) 3.0
    /\ In (SetRotationBoost (rotationBoost (ctx w'))) (calls w').
Proof.
  apply (C4_formed_rotation (Pt.mk 140 100) (Pt.mk 100 100)); reflexivity.
Defined.

(** ** C5: direction of the pinch zoom *)

Lemma hypot_axis a : hypot a 0 = Rabs a.
Proof.
  unfold hypot. replace (a * a + 0 * 0) with (Rsqr a) by (unfold Rsqr; ring).
  apply sqrt_Rsqr_abs.
Qed.

Lemma hypot_axis_neg a : a <= 0 -> hypot a 0 = - a.
Proof. intros L. rewrite hypot_axis. apply Rabs_left1, L. Qed.

(** C5 (as amended).  A two-finger move sample after a two-finger sample,
    with a stored distance [d]: the handler runs without error, the new zoom
    accumulator is [clamp (previous - deltaDist * 0.05) (-20) 40] with
    [deltaDist] the separation of the two points minus [d], and the sample
    and its separation are stored for the next one.  From a previous value in
    [-20, 40] the accumulator never moves the wrong way: with [deltaDist > 0]
    it does not increase, with [deltaDist < 0] it does not decrease.  From a
    distance of 100 to a distance of 140 the value before clamping is the
    previous one minus 2.0.  A touch-start of two points stores the points
    and their separation; so [d] is the separation of the previous sample
    after a two-point touch-start and after every sample of the pinch
    block. *)
Theorem C5_pinch_never_reverses p1 p2 q1 q2 d a b t0 w :
  (lastTouchRef (refs w) = [q1; q2] ->
   lastDistRef (refs w) = Some d ->
   let dist := spread p1 p2 in
   let deltaDist := dist - d in
   let prev := zoomOffset (ctx w) in
   exists w',
     handleTouchMove [p1; p2] w = Ok (tt, w')
     /\ zoomOffset (ctx w') = clamp (prev - deltaDist * 0.05) (-20) 40
     /\ lastTouchRef (refs w') = [p1; p2]
     /\ lastDistRef (refs w') = Some dist
     /\ (deltaDist > 0 -> -20 <= prev <= 40 -> zoomOffset (ctx w') <= prev)
     /\ (deltaDist < 0 -> -20 <= prev <= 40 -> prev <= zoomOffset (ctx w'))
     /\ (d = 100 -> dist = 140 ->
         zoomOffset (ctx w') = clamp (prev - 2.0) (-20) 40))
  /\ (exists w0,
        handleTouchStart [a; b] t0 w = Ok (tt, w0)
        /\ lastTouchRef (refs w0) = [a; b]
        /\ lastDistRef (refs w0) = Some (spread a b)).
Proof.
  split.
  - intros L D dist deltaDist prev.
    destruct (move_pinch p1 p2 q1 q2 d w L D) as (w' & E & R & _ & Zo & _).
    fold (spread p1 p2) in R, Zo. fold dist in R, Zo.
    fold deltaDist in Zo. fold prev in Zo.
    exists w'. split; [exact E|]. split; [exact Zo|].
    split; [rewrite R; reflexivity|]. split; [rewrite R; reflexivity|].
    rewrite Zo. clear Zo E R.
    split; [|split].
    + intros G B. unfold Rmax, Rmin.
      destruct (Rle_dec _ 40); destruct (Rle_dec (-20) _); lra.
    + intros G B. unfold Rmax, Rmin.
      destruct (Rle_dec _ 40); destruct (Rle_dec (-20) _); lra.
    + intros Hd Hdist. unfold clamp, deltaDist. rewrite Hd, Hdist.
      f_equal. f_equal. lra.
  - rewrite start_pair. eexists. split; [reflexivity|].
    split; reflexivity.
Qed.

Lemma spread_axis a b : a <= b -> spread (Pt.mk a 0) (Pt.mk b 0) = b - a.
Proof.
  intros L. unfold spread. cbn [Pt.x Pt.y].
  replace (0 - 0) with 0 by ring. rewrite hypot_axis_neg by lra. ring.
Qed.

Lemma C5_pinch_never_reverses_witness :
  exists w',
    handleTouchMove [Pt.mk 0 0; Pt.mk 140 0]
      (mkWorld (mkRefs [Pt.mk 0 0; Pt.mk 100 0] (Some 100) 0 None false)
               chaosCtx viewport [])
    = Ok (tt, w')
    /\ zoomOffset (ctx w') = clamp (0 - 2.0) (-20) 40
    /\ zoomOffset (ctx w') <= 0
    /\ lastDistRef (refs w') = Some 140.
Proof.
  destruct (C5_pinch_never_reverses (Pt.mk 0 0) (Pt.mk 140 0)
              (Pt.mk 0 0) (Pt.mk 100 0) 100 (Pt.mk 0 0) (Pt.mk 100 0) 0
              (mkWorld (mkRefs [Pt.mk 0 0; Pt.mk 100 0] (Some 100) 0 None
                               false)
                       chaosCtx viewport []))
    as (Pinch & _).
  destruct (Pinch eq_refl eq_refl) as (w' & E & _ & _ & Ld & Dec & _ & Two).
  cbn [ctx zoomOffset chaosCtx] in Dec, Two.
  assert (S140 : spread (Pt.mk 0 0) (Pt.mk 140 0) = 140)
    by (rewrite spread_axis by lra; lra).
  rewrite S140 in Ld, Dec, Two.
  exists w'. split; [exact E|]. split; [apply Two; reflexivity|].
  split; [apply Dec; lra | exact Ld].
Defined.

(** The stored distance can be older than the previous sample.  After
    [threeFingerInterlude] the previous sample has its two points 500 pixels
    apart while the stored distance is still the 100 pixels of the
    touch-start; a sample 400 pixels apart, a pinch-in, then lowers the zoom
    offset from 0 to -15. *)
Lemma stale_distance_after_three_fingers :
  exists w1 w2,
    run threeFingerInterlude initialWorld = Ok (tt, w1)
    /\ lastTouchRef (refs w1) = [Pt.mk 0 0; Pt.mk 500 0]
    /\ lastDistRef (refs w1) = Some (spread (Pt.mk 0 0) (Pt.mk 100 0))
    /\ zoomOffset (ctx w1) = 0
    /\ handleTouchMove [Pt.mk 0 0; Pt.mk 400 0] w1 = Ok (tt, w2)
    /\ zoomOffset (ctx w2) = -15.
Proof.
  pose (w1 := mkWorld
                 (mkRefs [Pt.mk 0 0; Pt.mk 500 0]
                         (Some (spread (Pt.mk 0 0) (Pt.mk 100 0)))
                         10 None false)
                 chaosCtx viewport []).
  assert (E1 : run threeFingerInterlude initialWorld = Ok (tt, w1))
    by reflexivity.
  destruct (move_pinch (Pt.mk 0 0) (Pt.mk 400 0) (Pt.mk 0 0) (Pt.mk 500 0)
                       (spread (Pt.mk 0 0) (Pt.mk 100 0)) w1
                       eq_refl eq_refl)
    as (w2 & E2 & _ & _ & Z2 & _).
  exists w1, w2. split; [exact E1|].
  split; [reflexivity|]. split; [reflexivity|]. split; [reflexivity|].
  split; [exact E2|]. rewrite Z2.
  fold (spread (Pt.mk 0 0) (Pt.mk 400 0)).
  rewrite !spread_axis by lra. cbn [w1 ctx zoomOffset chaosCtx].
  rewrite clamp_inside_range by lra. lra.
Qed.

(** ** C6: pan outside FORMED mode *)

(** C6.  In a mode other than FORMED: (1) when the sample and the previous
    sample both have exactly one point, the new pan offset is
    [(previous.x + dx * 0.05, previous.y - dy * 0.05)] and is passed on
    through [setPanOffset]; (2) the scenario [dragScenario] runs without
    error, ends with [isDragging] true and the pan offset moved by
    (+1.0, +1.0), and emits no tap. *)
Theorem C6_pan_outside_formed p q t0 now2 w :
  state (ctx w) <> "FORMED"%string ->
  (lastTouchRef (refs w) = [q] ->
   let dx := Pt.x p - Pt.x q in
   let dy := Pt.y p - Pt.y q in
   exists w',
     handleTouchMove [p] w = Ok (tt, w')
     /\ panOffset (ctx w')
        = Pt.mk (Pt.x (panOffset (ctx w)) + dx * 0.05)
                (Pt.y (panOffset (ctx w)) - dy * 0.05)
     /\ In (SetPanOffset (panOffset (ctx w'))) (calls w'))
  /\ (exists w' new,
        run (dragScenario t0 now2) w = Ok (tt, w')
        /\ isDraggingRef (refs w') = true
        /\ panOffset (ctx w')
           = Pt.mk (Pt.x (panOffset (ctx w)) + 1.0)
                   (Pt.y (panOffset (ctx w)) + 1.0)
        /\ calls w' = calls w ++ new
        /\ existsb isTap new = false).
Proof.
  intros S.
  assert (Sb : forall w0, state (ctx w0) = state (ctx w) ->
                          String.eqb (state (ctx w0)) "FORMED" = false).
  { intros w0 ->. apply String.eqb_neq, S. }
  split.
  - intros L dx dy.
    destruct (move_single p q w L) as (w' & E & _ & _ & _ & _ & _ & _ & F).
    rewrite (Sb w eq_refl) in F. destruct F as (Po & _ & C).
    exists w'. split; [exact E|]. split; [exact Po|].
    rewrite C. apply in_or_app. right. left. reflexivity.
  - unfold dragScenario.
    destruct (start_single (Pt.mk 500 500) t0 w)
      as (w1 & E1 & R1 & _ & _ & _ & Po1 & _ & S1 & _ & C1).
    assert (L1 : lastTouchRef (refs w1) = [Pt.mk 500 500])
      by (rewrite R1; reflexivity).
    destruct (move_single (Pt.mk 520 480) (Pt.mk 500 500) w1 L1)
      as (w2 & E2 & R2 & _ & _ & _ & _ & _ & F).
    rewrite (Sb w1 S1) in F. destruct F as (Po2 & _ & C2).
    assert (D2 : isDraggingRef (refs w2) = true).
    { rewrite R2. cbn [isDraggingRef]. rewrite movedEnough_x; [reflexivity|].
      cbn [Pt.x]. unfold Rabs; destruct (Rcase_abs _); lra. }
    assert (T2 : tapTest (refs w2) (t0 + 150) = false)
      by (unfold tapTest; rewrite D2; reflexivity).
    rewrite (run_start _ _ _ _ _ E1), (run_move _ _ _ _ E2).
    rewrite (run_end _ _ _ _ _ _ (end_spec _ _ _ w2)). cbn [run ret].
    rewrite T2. eexists. eexists. split; [reflexivity|].
    cbn [refs ctx calls isDraggingRef].
    split; [exact D2|]. split.
    + rewrite Po2, Po1. cbn [Pt.x Pt.y]. f_equal; lra.
    + rewrite C2, C1, <- app_assoc. split; reflexivity.
Qed.

Lemma C6_pan_outside_formed_witness :
  (exists w',
     handleTouchMove [Pt.mk 520 480]
       (mkWorld (mkRefs [Pt.mk 500 500] None 0 (Some (Pt.mk 500 500)) false)
                chaosCtx viewport [])
     = Ok (tt, w')
     /\ panOffset (ctx w')
        = Pt.mk (0 + (520 - 500) * 0.05) (0 - (480 - 500) * 0.05)
     /\ In (SetPanOffset (panOffset (ctx w'))) (calls w'))
  /\ (exists w' new,
        run (dragScenario 0 150)
            (mkWorld (mkRefs [Pt.mk 500 500] None 0 (Some (Pt.mk 500 500))
                             false)
                     chaosCtx viewport [])
        = Ok (tt, w')
        /\ isDraggingRef (refs w') = true
        /\ panOffset (ctx w') = Pt.mk (0 + 1.0) (0 + 1.0)
        /\ calls w' = new
        /\ existsb isTap new = false).
Proof.
  destruct (C6_pan_outside_formed (Pt.mk 520 480) (Pt.mk 500 500) 0 150
              (mkWorld (mkRefs [Pt.mk 500 500] None 0 (Some (Pt.mk 500 500))
                               false)
                       chaosCtx viewport []))
    as (Pan & Scenario).
  { cbn. discriminate. }
  split; [exact (Pan eq_refl) | exact Scenario].
Defined.

(** ** C7: a change of the number of fingers *)

(** C7.  A move sample whose number of points differs from that of the
    previous sample runs without error and calls no setter: no rotation, pan
    or zoom signal (and no other) is emitted, the context is unchanged, and
    the only change to the refs is that the sample becomes the previous
    one. *)
Theorem C7_count_change_emits_nothing touches w :
  List.length touches <> List.length (lastTouchRef (refs w)) ->
  exists w',
    handleTouchMove touches w = Ok (tt, w')
    /\ calls w' = calls w
    /\ ctx w' = ctx w
    /\ refs w' = mkRefs touches (lastDistRef (refs w))
                        (touchStartTimeRef (refs w))
                        (startTouchPosRef (refs w)) (isDraggingRef (refs w)).
Proof.
  intros N. rewrite move_other by (left; exact N).
  eexists; split; [reflexivity|]. repeat split; reflexivity.
Qed.

Lemma C7_count_change_emits_nothing_witness :
  exists w',
    handleTouchMove [Pt.mk 100 100; Pt.mk 300 100]
      (mkWorld (mkRefs [Pt.mk 100 100] None 0 (Some (Pt.mk 100 100)) false)
               chaosCtx viewport [])
    = Ok (tt, w')
    /\ calls w' = []
    /\ ctx w' = chaosCtx
    /\ refs w' = mkRefs [Pt.mk 100 100; Pt.mk 300 100] None 0
                        (Some (Pt.mk 100 100)) false.
Proof.
  apply (C7_count_change_emits_nothing
           [Pt.mk 100 100; Pt.mk 300 100]
           (mkWorld (mkRefs [Pt.mk 100 100] None 0 (Some (Pt.mk 100 100))
                            false)
                    chaosCtx viewport [])).
  cbn. discriminate.
Defined.

(** ** C8: more than two points *)

(** C8 (as amended).  A sample with more than two points raises no error and
    is processed by neither block: touch-start records the sample and the
    time and clears [isDragging], touch-move records the sample, and both
    leave the stored distance and the context alone and call no setter;
    touch-end treats it as it treats its first two points. *)
Theorem C8_more_than_two_points_only_recorded touches now now2 w :
  (2 < List.length touches)%nat ->
  handleTouchStart touches now w
  = Ok (tt, mkWorld (mkRefs touches (lastDistRef (refs w)) now
                            (startTouchPosRef (refs w)) false)
                    (ctx w) (window w) (calls w))
  /\ handleTouchMove touches w
     = Ok (tt, mkWorld (mkRefs touches (lastDistRef (refs w))
                               (touchStartTimeRef (refs w))
                               (startTouchPosRef (refs w))
                               (isDraggingRef (refs w)))
                       (ctx w) (window w) (calls w))
  /\ handleTouchEnd touches now now2 w
     = handleTouchEnd (firstn 2 touches) now now2 w
  /\ exists w', handleTouchEnd touches now now2 w = Ok (tt, w').
Proof.
  intros G. split; [|split; [|split]].
  - apply start_other. right; exact G.
  - rewrite move_other by (right; left; exact G). reflexivity.
  - rewrite !end_spec.
    destruct touches as [|p1 [|p2 t]]; cbn in G; try lia. reflexivity.
  - apply handleTouchEnd_total.
Qed.

Lemma C8_more_than_two_points_only_recorded_witness :
  handleTouchMove [Pt.mk 0 0; Pt.mk 140 0; Pt.mk 50 50]
    (mkWorld (mkRefs [Pt.mk 0 0; Pt.mk 100 0; Pt.mk 50 50] (Some 100) 0 None
                     false)
             chaosCtx viewport [])
  = Ok (tt, mkWorld (mkRefs [Pt.mk 0 0; Pt.mk 140 0; Pt.mk 50 50] (Some 100)
                            0 None false)
                    chaosCtx viewport []).
Proof.
  apply (C8_more_than_two_points_only_recorded
           [Pt.mk 0 0; Pt.mk 140 0; Pt.mk 50 50] 0 0
           (mkWorld (mkRefs [Pt.mk 0 0; Pt.mk 100 0; Pt.mk 50 50] (Some 100)
                            0 None false)
                    chaosCtx viewport [])).
  cbn. lia.
Defined.

(** C8 (counterexample).  On [threeFingerSpread] nothing reaches the sink,
    while the same events cut down to their first two points emit a zoom
    update. *)
Lemma C8_counterexample_three_fingers :
  ~ ignoresExtraPoints initialWorld threeFingerSpread.
Proof.
  unfold ignoresExtraPoints, outcome, threeFingerSpread.
  cbn [map firstTwo firstn].
  assert (E3 : run [TouchStart [Pt.mk 0 0; Pt.mk 100 0; Pt.mk 50 50] 0;
                    TouchMove [Pt.mk 0 0; Pt.mk 140 0; Pt.mk 50 50]]
                   initialWorld
               = Ok (tt, mkWorld
                           (mkRefs [Pt.mk 0 0; Pt.mk 140 0; Pt.mk 50 50]
                                   None 0 None false)
                           chaosCtx viewport []))
    by reflexivity.
  rewrite E3. clear E3.
  rewrite (run_start _ _ _ _ _ (start_pair _ _ _ initialWorld)).
  match goal with |- context [run _ ?w1] =>
    destruct (move_pinch (Pt.mk 0 0) (Pt.mk 140 0) (Pt.mk 0 0) (Pt.mk 100 0)
                         (hypot (0 - 100) (0 - 0)) w1 eq_refl eq_refl)
      as (w2 & E2 & _ & _ & _ & _ & _ & _ & _ & _ & C2)
  end.
  rewrite (run_move _ _ _ _ E2). cbn [run ret ctx calls].
  intros Eq. injection Eq as _ Eq. rewrite C2 in Eq. discriminate.
Qed.

(** ** C9: the normalized pointer *)

Lemma div_unit v W : 0 < W -> 0 <= v <= W -> 0 <= v / W <= 1.
Proof.
  intros HW [V0 V1]. assert (I := Rinv_0_lt_compat W HW). unfold Rdiv. split.
  - apply Rmult_le_pos; lra.
  - apply (Rmult_le_reg_r W); [exact HW|].
    rewrite Rmult_assoc, Rinv_l by lra. lra.
Qed.

Lemma normalized_inUnitSquare win p :
  0 < innerWidth win -> 0 < innerHeight win ->
  inViewport win p -> inUnitSquare (normalized win p).
Proof.
  intros Hw Hh [X Y]. unfold inUnitSquare, normalized. cbn [Pt.x Pt.y].
  split; apply div_unit; assumption.
Qed.

(** C9 (as amended).  A single-finger touch-start, and a single-finger move
    after a single-finger sample, run without error and emit the pointer
    [(x / innerWidth, y / innerHeight)] of the touch point; the same point fed
    a second time emits the same pointer again.  The pointer lies in
    [0,1] x [0,1] when the viewport has positive size and the touch point
    lies inside it. *)
Theorem C9_pointer_normalized p q now w :
  (exists w',
     handleTouchStart [p] now w = Ok (tt, w')
     /\ pointer (ctx w') = normalized (window w) p
     /\ calls w' = calls w ++ [SetPointer (normalized (window w) p)])
  /\ (lastTouchRef (refs w) = [q] ->
      exists w1 w2 s1 s2,
        handleTouchMove [p] w = Ok (tt, w1)
        /\ pointer (ctx w1) = normalized (window w) p
        /\ calls w1 = calls w ++ [s1; SetPointer (normalized (window w) p)]
        /\ handleTouchMove [p] w1 = Ok (tt, w2)
        /\ pointer (ctx w2) = normalized (window w) p
        /\ calls w2 = calls w1 ++ [s2; SetPointer (normalized (window w) p)])
  /\ (0 < innerWidth (window w) -> 0 < innerHeight (window w) ->
      inViewport (window w) p ->
      inUnitSquare (normalized (window w) p)).
Proof.
  split; [|split].
  - destruct (start_single p now w)
      as (w' & E & _ & _ & P & _ & _ & _ & _ & _ & C).
    exists w'. split; [exact E|]. split; [exact P|].
    rewrite C, P. reflexivity.
  - intros L. destruct (move_single p q w L)
      as (w1 & E1 & R1 & W1 & P1 & _ & _ & _ & F1).
    assert (L1 : lastTouchRef (refs w1) = [p]) by (rewrite R1; reflexivity).
    destruct (move_single p p w1 L1)
      as (w2 & E2 & _ & _ & P2 & _ & _ & _ & F2).
    rewrite W1 in P2. fold (normalized (window w) p) in P1, P2.
    exists w1, w2.
    assert (C1 : exists s1, calls w1
                   = calls w ++ [s1; SetPointer (normalized (window w) p)]).
    { rewrite <- P1.
      destruct (String.eqb (state (ctx w)) "FORMED");
        destruct F1 as (_ & _ & C); eexists; exact C. }
    assert (C2 : exists s2, calls w2
                   = calls w1 ++ [s2; SetPointer (normalized (window w) p)]).
    { rewrite <- P2.
      destruct (String.eqb (state (ctx w1)) "FORMED");
        destruct F2 as (_ & _ & C); eexists; exact C. }
    destruct C1 as (s1 & C1). destruct C2 as (s2 & C2).
    exists s1, s2. repeat split; assumption.
  - apply normalized_inUnitSquare.
Qed.

Lemma C9_pointer_normalized_witness :
  (exists w',
     handleTouchStart [Pt.mk 500 250] 0 fingerNearTop = Ok (tt, w')
     /\ pointer (ctx w') = normalized viewport (Pt.mk 500 250)
     /\ calls w' = [SetPointer (normalized viewport (Pt.mk 500 250))])
  /\ (exists w1 w2 s1 s2,
        handleTouchMove [Pt.mk 500 250] fingerNearTop = Ok (tt, w1)
        /\ pointer (ctx w1) = normalized viewport (Pt.mk 500 250)
        /\ calls w1 = [s1; SetPointer (normalized viewport (Pt.mk 500 250))]
        /\ handleTouchMove [Pt.mk 500 250] w1 = Ok (tt, w2)
        /\ pointer (ctx w2) = normalized viewport (Pt.mk 500 250)
        /\ calls w2
           = calls w1 ++ [s2; SetPointer (normalized viewport (Pt.mk 500 250))])
  /\ inUnitSquare (normalized viewport (Pt.mk 500 250)).
Proof.
  destruct (C9_pointer_normalized (Pt.mk 500 250) (Pt.mk 500 20) 0
              fingerNearTop) as (S & M & U).
  split; [exact S|]. split; [exact (M eq_refl)|].
  apply U; cbn; try lra. unfold inViewport; cbn; lra.
Defined.

(** C9 (counterexample).  The finger of [fingerNearTop] moves 50 pixels up,
    past the top edge of the viewport: the emitted pointer has a negative
    second coordinate. *)
Lemma C9_counterexample_outside_viewport :
  ~ pointerRuleOfSpec fingerNearTop (Pt.mk 500 (-30)).
Proof.
  unfold pointerRuleOfSpec.
  destruct (move_single (Pt.mk 500 (-30)) (Pt.mk 500 20) fingerNearTop eq_refl)
    as (w' & E & _ & _ & P & _).
  rewrite E, P. cbn. unfold inUnitSquare. cbn. intros (_ & _ & Y & _). lra.
Qed.

End TouchInputSpec.

(** * Properties of the share link *)

Module TreeCreatorSpec.
Import TreeCreator.
Local Open Scope string_scope.

(** ** Strings without a given character *)

Lemma append_assoc (a b c : string) : (a ++ b) ++ c = a ++ (b ++ c).
Proof. induction a as [|x a IH]; cbn; [reflexivity | rewrite IH; reflexivity]. Qed.

Lemma allChars_app f a b :
  allChars f (a ++ b) = allChars f a && allChars f b.
Proof.
  induction a as [|x a IH]; cbn; [reflexivity|].
  rewrite IH. apply andb_assoc.
Qed.

Lemma allChars_impl (f g : ascii -> bool) s :
  (forall a, f a = true -> g a = true) ->
  allChars f s = true -> allChars g s = true.
Proof.
  intros I. induction s as [|x s IH]; cbn; [reflexivity|].
  rewrite !andb_true_iff. intros [X S]. split; [apply I, X | apply IH, S].
Qed.

(** A hexadecimal digit is none of the characters the URL gives a meaning. *)
Lemma hex_hasNone c s :
  isHexDigit c = false -> allChars isHexDigit s = true -> hasNone c s = true.
Proof.
  intros N. apply allChars_impl. intros a Ha.
  destruct (Ascii.eqb_spec a c) as [->|_]; [congruence | reflexivity].
Qed.

Lemma takeUntil_none c s : hasNone c s = true -> takeUntil c s = s.
Proof.
  induction s as [|x s IH]; cbn; [reflexivity|].
  rewrite andb_true_iff, negb_true_iff. intros [X S].
  rewrite X, IH by exact S. reflexivity.
Qed.

Lemma queryOf_app a r :
  hasNone "?" a = true -> hasNone "#" a = true ->
  queryOf (a ++ String "?" r) = takeUntil "#" r.
Proof.
  induction a as [|x a IH]; cbn; [reflexivity|].
  rewrite !andb_true_iff, !negb_true_iff. intros [Q Qs] [H Hs].
  rewrite H, Q. apply IH; assumption.
Qed.

Lemma splitOn_none c s : hasNone c s = true -> splitOn c s = [s].
Proof.
  induction s as [|x s IH]; cbn; [reflexivity|].
  rewrite andb_true_iff, negb_true_iff. intros [X S].
  rewrite X, IH by exact S. reflexivity.
Qed.

Lemma splitOn_app c a b :
  hasNone c a = true -> splitOn c (a ++ String c b) = a :: splitOn c b.
Proof.
  induction a as [|x a IH]; cbn.
  - intros _. rewrite Ascii.eqb_refl. reflexivity.
  - rewrite andb_true_iff, negb_true_iff. intros [X S].
    rewrite X, IH by exact S. reflexivity.
Qed.

Lemma plusToSpace_none s : hasNone "+" s = true -> plusToSpace s = s.
Proof.
  induction s as [|x s IH]; cbn; [reflexivity|].
  rewrite andb_true_iff, negb_true_iff. intros [X S].
  rewrite X, IH by exact S. reflexivity.
Qed.

Lemma percentDecode_none s : hasNone "%" s = true -> percentDecode s = s.
Proof.
  induction s as [|x s IH]; [reflexivity|].
  cbn [hasNone allChars]. rewrite andb_true_iff, negb_true_iff.
  intros [X S]. specialize (IH S).
  cbn [percentDecode]. fold percentDecode. rewrite X.
  destruct s as [|h1 [|h2 r2]]; rewrite ?IH; reflexivity.
Qed.

Lemma decode_hex s : allChars isHexDigit s = true -> decode s = s.
Proof.
  intros A. unfold decode.
  rewrite plusToSpace_none by (apply hex_hasNone; [reflexivity | exact A]).
  apply percentDecode_none, hex_hasNone; [reflexivity | exact A].
Qed.

Lemma hexColor_inv s :
  hexColor s = true ->
  exists a r, s = String "#" (String a r)
              /\ allChars isHexDigit (String a r) = true.
Proof.
  destruct s as [|x [|a r]]; cbn; try discriminate.
  - destruct (Ascii.eqb_spec x "#"%char) as [->|N].
    + discriminate.
    + destruct x as [[] [] [] [] [] [] [] []]; discriminate.
  - destruct (Ascii.eqb_spec x "#"%char) as [->|N].
    + intros A. exists a, r. split; [reflexivity | exact A].
    + destruct x as [[] [] [] [] [] [] [] []]; try discriminate.
      contradiction N; reflexivity.
Qed.

Lemma replace_hash h : replace "#" "" (String "#" h) = h.
Proof. destruct h; reflexivity. Qed.

Lemma hasNone_key c k h :
  hasNone c k = true -> isHexDigit c = false ->
  allChars isHexDigit h = true -> hasNone c (k ++ h) = true.
Proof.
  intros K N A. unfold hasNone. rewrite allChars_app.
  apply andb_true_iff. split; [exact K | apply hex_hasNone; assumption].
Qed.

Lemma linkQuery_no_hash h1 h2 h3 :
  allChars isHexDigit h1 = true -> allChars isHexDigit h2 = true ->
  allChars isHexDigit h3 = true ->
  hasNone "#" (linkQuery h1 h2 h3) = true.
Proof.
  intros A1 A2 A3. unfold linkQuery, hasNone.
  rewrite !allChars_app.
  fold (hasNone "#" h1). fold (hasNone "#" h2). fold (hasNone "#" h3).
  rewrite !hex_hasNone by (reflexivity || assumption). reflexivity.
Qed.

Lemma params_of_linkQuery h1 h2 h3 :
  allChars isHexDigit h1 = true -> allChars isHexDigit h2 = true ->
  allChars isHexDigit h3 = true ->
  URLSearchParams (String "?" (linkQuery h1 h2 h3))
  = [("c1", h1); ("c2", h2); ("c3", h3)].
Proof.
  intros A1 A2 A3. unfold URLSearchParams, linkQuery.
  replace ("c1=" ++ h1 ++ "&c2=" ++ h2 ++ "&c3=" ++ h3)
    with (("c1=" ++ h1) ++ String "&" (("c2=" ++ h2) ++ String "&" ("c3=" ++ h3)))
    by (rewrite !append_assoc; reflexivity).
  rewrite !splitOn_app by (apply hasNone_key; reflexivity || assumption).
  rewrite splitOn_none by (apply hasNone_key; reflexivity || assumption).
  cbn [filter map append String.eqb negb nameValue Ascii.eqb Bool.eqb].
  cbn. rewrite !decode_hex by assumption. reflexivity.
Qed.

(** C10.  For a configuration whose three colours are ['#'] followed by
    hexadecimal digits (one or more), on a page whose origin and path hold
    neither ['?'] nor ['#']: [generateShareLink] stores a link, and the page
    opened at that link sets on mount a configuration with the same three
    colours and no photo URL.  On any page, when [c1], [c2] or [c3] is absent
    from the query, mounting leaves the component state as it is. *)
Theorem C10_share_link_round_trip loc cfg c :
  hasNone "?" (origin loc ++ pathname loc) = true ->
  hasNone "#" (origin loc ++ pathname loc) = true ->
  hexColor (primaryColor cfg) = true ->
  hexColor (accentColor cfg) = true ->
  hexColor (lightColor cfg) = true ->
  treeConfig c = Some cfg ->
  (exists url,
     shareUrl (generateShareLink loc c) = Some url
     /\ clipboard (generateShareLink loc c) = Some url
     /\ forall c0,
          treeConfig (onMount (openAt loc url) c0)
          = Some (mkTreeConfig (primaryColor cfg) (accentColor cfg)
                               (lightColor cfg) None))
  /\ (forall loc0 c0,
        get (URLSearchParams (search loc0)) "c1" = None
        \/ get (URLSearchParams (search loc0)) "c2" = None
        \/ get (URLSearchParams (search loc0)) "c3" = None ->
        onMount loc0 c0 = c0).
Proof.
  intros Q H P A L T. split.
  - unfold generateShareLink. rewrite T. cbn [shareUrl clipboard].
    eexists. split; [reflexivity|]. split; [reflexivity|]. intros c0.
    unfold shareLink.
    destruct (hexColor_inv _ P) as (a1 & r1 & -> & A1).
    destruct (hexColor_inv _ A) as (a2 & r2 & -> & A2).
    destruct (hexColor_inv _ L) as (a3 & r3 & -> & A3).
    rewrite !replace_hash.
    assert (S : searchOf (origin loc ++ pathname loc ++ "?c1=" ++ String a1 r1
                          ++ "&c2=" ++ String a2 r2 ++ "&c3=" ++ String a3 r3)
                = String "?" (linkQuery (String a1 r1) (String a2 r2)
                                        (String a3 r3))).
    { unfold searchOf. rewrite <- append_assoc.
      change ("?c1=" ++ String a1 r1 ++ "&c2=" ++ String a2 r2 ++ "&c3="
              ++ String a3 r3)
        with (String "?" (linkQuery (String a1 r1) (String a2 r2)
                                    (String a3 r3))).
      rewrite queryOf_app by assumption.
      rewrite takeUntil_none by (apply linkQuery_no_hash; assumption).
      reflexivity. }
    unfold onMount, openAt. cbn [search]. rewrite S.
    rewrite params_of_linkQuery by assumption. reflexivity.
  - intros loc0 c0 N. unfold onMount.
    destruct N as [N|[N|N]]; rewrite N; cbn [truthy andb];
      rewrite ?andb_false_r; reflexivity.
Qed.

Lemma C10_share_link_round_trip_witness :
  exists url,
    url = "https://tree.example/ggtree/?c1=ff00aa&c2=0B5345&c3=fff"
    /\ forall c0,
         treeConfig
           (onMount (openAt (mkLocation "https://tree.example" "/ggtree/" "")
                            url) c0)
         = Some (mkTreeConfig "#ff00aa" "#0B5345" "#fff" None).
Proof.
  destruct (C10_share_link_round_trip
              (mkLocation "https://tree.example" "/ggtree/" "")
              (mkTreeConfig "#ff00aa" "#0B5345" "#fff" (Some "blob:photo"))
              (mkComp (Some (mkTreeConfig "#ff00aa" "#0B5345" "#fff"
                                          (Some "blob:photo")))
                      true None None)
              eq_refl eq_refl eq_refl eq_refl eq_refl eq_refl)
    as ((url & U & _ & R) & _).
  exists url. split; [|exact R].
  cbn in U. injection U as <-. reflexivity.
Defined.

End TreeCreatorSpec.

(** * Properties of the arithmetic on doubles *)

Module Binary64Spec.
Import Binary64.
Local Open Scope float_scope.

(** ** Comparison of doubles *)

Lemma SFcompare_swap a b c :
  SFcompare a b = Some c -> SFcompare b a = Some (CompOpp c).
Proof.
  destruct a as [sa|sa| |sa ma ea]; destruct b as [sb|sb| |sb mb eb];
    cbn; try discriminate;
    try (intros E; injection E as <-;
         repeat match goal with s : bool |- _ => destruct s end;
         reflexivity).
  intros E; injection E as <-. f_equal.
  change (Pos.compare_cont Eq ma mb) with (Pos.compare ma mb).
  change (Pos.compare_cont Eq mb ma) with (Pos.compare mb ma).
  rewrite (Z.compare_antisym ea eb), (Pos.compare_antisym ma mb).
  destruct sa, sb; try reflexivity;
    destruct (ea ?= eb)%Z; cbn; try reflexivity;
    destruct (ma ?= mb)%positive; reflexivity.
Qed.

Lemma SFcompare_defined a b :
  SFeqb a a = true -> SFeqb b b = true -> exists c, SFcompare a b = Some c.
Proof.
  unfold SFeqb.
  destruct a as [sa|sa| |sa ma ea]; destruct b as [sb|sb| |sb mb eb];
    cbn; try discriminate; intros _ _; eexists; reflexivity.
Qed.

Lemma ltb_leb x y : (x <? y) = true -> (x <=? y) = true.
Proof.
  rewrite FloatAxioms.ltb_spec, FloatAxioms.leb_spec. unfold SFltb, SFleb.
  destruct (SFcompare _ _) as [[| |]|]; congruence.
Qed.

Lemma not_ltb_leb x y :
  is_nan x = false -> is_nan y = false -> (x <? y) = false -> (y <=? x) = true.
Proof.
  unfold is_nan.
  rewrite !negb_false_iff, !FloatAxioms.eqb_spec, FloatAxioms.ltb_spec,
    FloatAxioms.leb_spec.
  intros X Y. destruct (SFcompare_defined _ _ X Y) as (c & C).
  unfold SFltb, SFleb. rewrite C, (SFcompare_swap _ _ _ C).
  destruct c; cbn; congruence.
Qed.

Lemma clamp_between v lo hi :
  is_nan v = false -> is_nan lo = false -> is_nan hi = false ->
  (lo <=? hi) = true -> (lo <=? lo) = true -> (hi <=? hi) = true ->
  ((lo <=? Math_max (Math_min v hi) lo)
   && (Math_max (Math_min v hi) lo <=? hi) = true)
  /\ ((lo <=? Math_max lo (Math_min v hi))
      && (Math_max lo (Math_min v hi) <=? hi) = true).
Proof.
  intros V Lo Hi LH LL HH.
  assert (M : Math_min v hi = v /\ (v <=? hi) = true \/ Math_min v hi = hi).
  { unfold Math_min. rewrite V, Hi. cbn [orb].
    destruct (v <? hi) eqn:A; [left; split; [reflexivity | apply ltb_leb, A]|].
    destruct (hi <? v) eqn:B; [right; reflexivity|].
    destruct (get_sign v); [left | right; reflexivity].
    split; [reflexivity | apply not_ltb_leb; assumption]. }
  destruct M as [[-> VH] | ->].
  - split; unfold Math_max; rewrite V, Lo; cbn [orb].
    + destruct (v <? lo) eqn:A; [rewrite LL, LH; reflexivity|].
      assert (LV : (lo <=? v) = true) by (apply not_ltb_leb; assumption).
      destruct (lo <? v); [rewrite LV, VH; reflexivity|].
      destruct (get_sign v); [rewrite LL, LH | rewrite LV, VH]; reflexivity.
    + destruct (lo <? v) eqn:A.
      { rewrite (ltb_leb _ _ A), VH. reflexivity. }
      destruct (v <? lo) eqn:B; [rewrite LL, LH; reflexivity|].
      assert (LV : (lo <=? v) = true) by (apply not_ltb_leb; assumption).
      destruct (get_sign lo); [rewrite LV, VH | rewrite LL, LH]; reflexivity.
  - split; unfold Math_max; rewrite Hi, Lo; cbn [orb].
    + destruct (hi <? lo) eqn:A; [rewrite LL, LH; reflexivity|].
      destruct (lo <? hi); [rewrite LH, HH; reflexivity|].
      destruct (get_sign hi); [rewrite LL, LH | rewrite LH, HH]; reflexivity.
    + destruct (lo <? hi); [rewrite LH, HH; reflexivity|].
      destruct (hi <? lo); [rewrite LL, LH; reflexivity|].
      destruct (get_sign lo); [rewrite LH, HH | rewrite LL, LH]; reflexivity.
Qed.

Lemma clamp_nan v lo hi :
  is_nan v = true ->
  is_nan (Math_max (Math_min v hi) lo) = true
  /\ is_nan (Math_max lo (Math_min v hi)) = true.
Proof.
  intros V. unfold Math_min. rewrite V. cbn [orb].
  unfold Math_max.
  replace (is_nan nan) with true by reflexivity.
  rewrite orb_true_r. cbn [orb]. split; reflexivity.
Qed.

(** ** C3: the clamped accumulators *)

(** C3 (as amended).  On doubles, for every delta, infinite ones included,
    and every prior value: when the number handed to the clamp (the previous
    value minus the boost, or minus [deltaDist * 0.05]) is not NaN, the
    rotation update lies in [-3.0, 3.0] and the zoom update in [-20, 40]; when
    it is NaN, the update is NaN. *)
Theorem C3_updates_clamped_unless_nan dx prevRotation deltaDist prevZoom :
  (is_nan (prevRotation - dx * 0.5 * 0.05) = false ->
   inRange (-3.0) 3.0 (rotationUpdate dx prevRotation) = true)
  /\ (is_nan (prevZoom - deltaDist * 0.05) = false ->
      inRange (-20) 40 (zoomUpdate deltaDist prevZoom) = true)
  /\ (is_nan (prevRotation - dx * 0.5 * 0.05) = true ->
      is_nan (rotationUpdate dx prevRotation) = true)
  /\ (is_nan (prevZoom - deltaDist * 0.05) = true ->
      is_nan (zoomUpdate deltaDist prevZoom) = true).
Proof.
  unfold rotationUpdate, zoomUpdate, inRange. cbv zeta.
  split; [|split; [|split]].
  - intros V.
    apply (clamp_between (prevRotation - dx * 0.5 * 0.05) (-3.0) 3.0);
      (exact V || reflexivity).
  - intros V.
    apply (clamp_between (prevZoom - deltaDist * 0.05) (-20) 40);
      (exact V || reflexivity).
  - intros V. apply (clamp_nan _ (-3.0) 3.0), V.
  - intros V. apply (clamp_nan _ (-20) 40), V.
Qed.

Lemma C3_updates_clamped_unless_nan_witness :
  inRange (-3.0) 3.0 (rotationUpdate 1e300 0) = true
  /\ inRange (-20) 40 (zoomUpdate infinity 7) = true.
Proof.
  destruct (C3_updates_clamped_unless_nan 1e300 0 infinity 7)
    as (Rot & Zoom & _).
  split; [apply Rot | apply Zoom]; reflexivity.
Defined.

(** C3 (counterexample).  Two fingers land at [farLeft] and [farRight]: the
    difference of their coordinates overflows, so the distance stored at
    touch-start is Infinity.  At the next sample, on the same points, the
    distance is Infinity again, [deltaDist] is Infinity - Infinity, and the
    zoom update is NaN, which is outside [-20, 40]. *)
Lemma C3_counterexample_overflowing_pinch :
  ~ zoomClampedOfSpec (separation farLeft farRight) farLeft farRight 0.
Proof. unfold zoomClampedOfSpec. vm_compute. discriminate. Qed.

(** ** C5: direction of the pinch zoom *)

(** On doubles too, from 100 to 140 the value before clamping is the previous
    one minus 2.0. *)
Lemma zoom_100_to_140 prev :
  zoomUpdate (140 - 100) prev = Math_max (-20) (Math_min (prev - 2) 40).
Proof. reflexivity. Qed.

(** C5 (counterexample).  The stored distance is 100.3, the two points are
    at (0.1, 0) and (100.4, 0), the zoom offset is 10.  The distance is
    100.30000000000001, so [deltaDist] is positive, about 1.4e-14; times 0.05
    it is too small to change 10, and the zoom offset stays 10: not strictly
    smaller, and not -20. *)
Lemma C5_counterexample_absorbed_change :
  ~ pinchDirectionOfSpec 100.3 (Pt64.mk 0.1 0) (Pt64.mk 100.4 0) 10.
Proof.
  unfold pinchDirectionOfSpec. cbv zeta. intros [Out _].
  destruct (Out eq_refl) as [Smaller | Kept];
    [vm_compute in Smaller | vm_compute in Kept]; discriminate.
Qed.

End Binary64Spec.

(** * Further properties of the touch handlers *)

Module TouchInputExtra.
Import TouchInput TouchInputSpec.

(** ** Errors *)

(** X1.  No sequence of touch events makes a handler throw, whatever the
    number of points of each sample and whatever the refs hold: every read of
    [touches[i]] and [lastTouchRef.current[i]] is covered by a length test. *)
Theorem X1_no_handler_throws es w :
  exists w', run es w = Ok (tt, w').
Proof.
  revert w. induction es as [|e es IH]; intros w.
  - exists w. reflexivity.
  - destruct (dispatch_total e w) as (w1 & E1).
    rewrite (run_cons _ _ _ _ E1). apply IH.
Qed.

(** ** Sessions of one finger *)

Lemma last_cons {A} (qs : list A) : forall q p, last (q :: qs) p = last qs q.
Proof.
  induction qs as [|q' qs IH]; intros q p; [reflexivity|].
  change (last (q :: q' :: qs) p) with (last (q' :: qs) p).
  rewrite (IH q' p), (IH q' q). reflexivity.
Qed.

(** The refs after a run of single-finger samples. *)
Lemma one_finger_moves_refs qs :
  forall p w,
    lastTouchRef (refs w) = [p] ->
    exists w',
      run (map (fun q => TouchMove [q]) qs) w = Ok (tt, w')
      /\ refs w' = mkRefs [last qs p] (lastDistRef (refs w))
                          (touchStartTimeRef (refs w))
                          (startTouchPosRef (refs w))
                          (anyStepMoved p qs || isDraggingRef (refs w))
      /\ state (ctx w') = state (ctx w)
      /\ zoomOffset (ctx w') = zoomOffset (ctx w)
      /\ clickTrigger (ctx w') = clickTrigger (ctx w).
Proof.
  induction qs as [|q qs IH]; intros p w L.
  - exists w. split; [reflexivity|]. cbn [last anyStepMoved orb].
    rewrite <- L. destruct w as [[] ? ? ?]. repeat split; reflexivity.
  - destruct (move_single q p w L) as (w1 & E1 & R1 & _ & _ & Z1 & S1 & K1 & _).
    destruct (IH q w1) as (w' & E & R & S & Z & K); [rewrite R1; reflexivity|].
    exists w'. cbn [map]. rewrite (run_move _ _ _ _ E1).
    split; [exact E|]. split.
    + rewrite R, R1, last_cons. cbn [lastDistRef touchStartTimeRef
        startTouchPosRef isDraggingRef anyStepMoved].
      rewrite (orb_comm (movedEnough q p)), <- !orb_assoc.
      rewrite (orb_comm (movedEnough q p)), !orb_assoc. reflexivity.
    + repeat split; congruence.
Qed.

(** X2.  Drag detection works step by step.  After a session of one finger
    that lands on [p] and moves through [qs], [isDragging] is true exactly
    when some sample lies more than 2 pixels, on some axis, from the sample
    just before it; the distance from the landing point plays no part.  The
    last sample and the landing time are what the refs keep. *)
Theorem X2_dragging_is_stepwise p t0 qs w :
  exists w',
    run (oneFingerSession p t0 qs) w = Ok (tt, w')
    /\ isDraggingRef (refs w') = anyStepMoved p qs
    /\ lastTouchRef (refs w') = [last qs p]
    /\ touchStartTimeRef (refs w') = t0
    /\ startTouchPosRef (refs w') = Some p.
Proof.
  unfold oneFingerSession.
  destruct (start_single p t0 w) as (w0 & E0 & R0 & _).
  destruct (one_finger_moves_refs qs p w0) as (w' & E & R & _);
    [rewrite R0; reflexivity|].
  exists w'. rewrite (run_start _ _ _ _ _ E0). split; [exact E|].
  rewrite R, R0. cbn. rewrite orb_false_r. repeat split; reflexivity.
Qed.

(** X3.  A session of one finger in which no sample lies more than 2 pixels,
    on either axis, from the sample before it ends in a tap if and only if the
    finger lifts less than 300 ms after it landed, however far it has
    travelled in all: neither [TAP_THRESHOLD] nor the landing point is
    consulted. *)
Theorem X3_slow_drag_is_a_tap p t0 qs now1 now2 w :
  anyStepMoved p qs = false ->
  exists w1 w2,
    run (oneFingerSession p t0 qs) w = Ok (tt, w1)
    /\ handleTouchEnd [] now1 now2 w1 = Ok (tt, w2)
    /\ (calls w2 = calls w1 ++ [SetClickTrigger now2]
        <-> (now1 - t0 < 300)%Z)
    /\ ((300 <= now1 - t0)%Z -> calls w2 = calls w1).
Proof.
  intros Slow. unfold oneFingerSession.
  destruct (start_single p t0 w) as (w0 & E0 & R0 & _).
  destruct (one_finger_moves_refs qs p w0) as (w1 & E1 & R1 & _);
    [rewrite R0; reflexivity|].
  exists w1. eexists. rewrite (run_start _ _ _ _ _ E0).
  split; [exact E1|]. split; [apply end_spec|]. cbn [calls].
  assert (T : tapTest (refs w1) now1 = true <-> (now1 - t0 < 300)%Z).
  { rewrite tapTest_true, R1, R0, Slow. cbn. tauto. }
  destruct (tapTest (refs w1) now1).
  - split; [split; [intros _; apply T|]; reflexivity|].
    intros Late. assert (now1 - t0 < 300)%Z by (apply T; reflexivity). lia.
  - split; [|reflexivity].
    split; intros E; [exfalso; exact (snoc_neq _ _ E)|].
    apply T in E. discriminate.
Qed.

Lemma within_two a b : -2 <= a - b <= 2 -> Rgtb (Rabs (a - b)) 2 = false.
Proof.
  intros B. apply Rgtb_false. unfold Rabs. destruct (Rcase_abs _); lra.
Qed.

Lemma X3_slow_drag_is_a_tap_witness :
  exists w1 w2,
    run (oneFingerSession (Pt.mk 100 100) 0
           [Pt.mk 102 100; Pt.mk 104 100; Pt.mk 106 100; Pt.mk 108 100;
            Pt.mk 110 100; Pt.mk 112 100; Pt.mk 114 100])
        initialWorld = Ok (tt, w1)
    /\ handleTouchEnd [] 250 250 w1 = Ok (tt, w2)
    /\ calls w2 = calls w1 ++ [SetClickTrigger 250].
Proof.
  destruct (X3_slow_drag_is_a_tap (Pt.mk 100 100) 0
              [Pt.mk 102 100; Pt.mk 104 100; Pt.mk 106 100; Pt.mk 108 100;
               Pt.mk 110 100; Pt.mk 112 100; Pt.mk 114 100]
              250 250 initialWorld)
    as (w1 & w2 & E1 & E2 & T & _).
  { cbn [anyStepMoved]. unfold movedEnough. cbn [Pt.x Pt.y].
    rewrite !within_two by lra. reflexivity. }
  exists w1, w2. split; [exact E1|]. split; [exact E2|].
  apply T. lia.
Defined.

(** ** What each event may emit *)

(** X6.  Each kind of event makes a fixed selection of setter calls.  A
    touch-start calls nothing or [setPointer] alone; a touch-end calls
    nothing or [setClickTrigger] alone, with the second clock reading; a
    touch-move calls nothing, or [setRotationBoost] then [setPointer] (in
    FORMED mode only), or [setPanOffset] then [setPointer] (in the other
    modes only), or [setZoomOffset] alone.  So a pinch never moves the
    pointer, a move never taps, and no event changes the display mode or the
    viewport. *)
Theorem X6_calls_by_event e w :
  exists w' new,
    dispatch e w = Ok (tt, w')
    /\ calls w' = calls w ++ new
    /\ callsAllowed (String.eqb (state (ctx w)) "FORMED") e new
    /\ state (ctx w') = state (ctx w)
    /\ window w' = window w.
Proof.
  destruct e as [t now|t|t now1 now2]; cbn [dispatch callsAllowed].
  - destruct t as [|p1 [|p2 [|p3 t]]].
    + rewrite start_other by (left; reflexivity).
      eexists; exists []. cbn. rewrite app_nil_r. repeat split; auto.
    + destruct (start_single p1 now w)
        as (w' & E & _ & Wn & _ & _ & _ & _ & S & _ & C).
      exists w'; eexists. split; [exact E|]. split; [exact C|].
      split; [right; eexists; reflexivity|]. split; assumption.
    + rewrite start_pair.
      eexists; exists []. cbn. rewrite app_nil_r. repeat split; auto.
    + rewrite start_other by (right; cbn; lia).
      eexists; exists []. cbn. rewrite app_nil_r. repeat split; auto.
  - destruct (move_cases t w)
      as [(p & q & -> & L)|[(p1 & p2 & q1 & q2 & d & -> & L & D)|E]].
    + destruct (move_single p q w L)
        as (w' & E & _ & Wn & _ & _ & S & _ & F).
      exists w'. destruct (String.eqb (state (ctx w)) "FORMED").
      * destruct F as (_ & _ & C). eexists. split; [exact E|].
        split; [exact C|]. split; [|split; assumption].
        right; left. split; [reflexivity|]. eexists; eexists; reflexivity.
      * destruct F as (_ & _ & C). eexists. split; [exact E|].
        split; [exact C|]. split; [|split; assumption].
        right; right; left. split; [reflexivity|].
        eexists; eexists; reflexivity.
    + destruct (move_pinch p1 p2 q1 q2 d w L D)
        as (w' & E & _ & Wn & _ & _ & _ & _ & S & _ & C).
      exists w'; eexists. split; [exact E|]. split; [exact C|].
      split; [|split; assumption].
      right; right; right. eexists; reflexivity.
    + rewrite E. eexists; exists []. cbn. rewrite app_nil_r.
      repeat split; auto.
  - rewrite end_spec. destruct (tapTest (refs w) now1).
    + eexists; exists [SetClickTrigger now2]. cbn. repeat split; auto.
    + eexists; exists []. cbn. rewrite app_nil_r. repeat split; auto.
Qed.


(** ** The landing point is recorded and never read *)

Ltac decide_tests :=
  repeat match goal with
  | |- context [if ?b then _ else _] => destruct b
  | |- context [match ?o with Some _ => _ | None => _ end] => destruct o
  end.

Lemma dispatch_ignores_startPos e w other :
  exists w' other',
    dispatch e w = Ok (tt, w')
    /\ dispatch e (withStartPos other w) = Ok (tt, withStartPos other' w').
Proof.
  open_world w. unfold withStartPos.
  destruct e as [t now|t|t now1 now2]; cbn [dispatch].
  - destruct t as [|p1 [|p2 [|p3 t]]]; unfold_handlers;
      eexists; eexists; split; reflexivity.
  - destruct t as [|p1 [|p2 [|p3 t]]]; destruct lt as [|q1 [|q2 [|q3 l]]];
      unfold_handlers; decide_tests;
      eexists; eexists; split; reflexivity.
  - rewrite !end_spec. cbn. eexists; eexists; split; reflexivity.
Qed.

(** X7.  [startTouchPosRef] is written at touch-start and read nowhere: over
    every sequence of events, two runs that differ only in what this ref
    holds at the start make the same setter calls and end in the same
    context and the same other refs.  No displacement from the landing point
    enters the tap decision. *)
Theorem X7_landing_point_never_read es w sp :
  exists w' sp',
    run es w = Ok (tt, w')
    /\ run es (withStartPos sp w) = Ok (tt, withStartPos sp' w').
Proof.
  revert w sp. induction es as [|e es IH]; intros w sp.
  - exists w, sp. split; reflexivity.
  - destruct (dispatch_ignores_startPos e w sp) as (w1 & sp1 & E1 & E1').
    destruct (IH w1 sp1) as (w' & sp' & E & E').
    exists w', sp'.
    rewrite (run_cons _ _ _ _ E1), (run_cons _ _ _ _ E1').
    split; assumption.
Qed.

(** ** No zoom against a stale distance *)

Lemma dispatch_without_distance e w :
  lastDistRef (refs w) = None ->
  isTwoPointStart e = false ->
  exists w',
    dispatch e w = Ok (tt, w')
    /\ lastDistRef (refs w') = None
    /\ zoomOffset (ctx w') = zoomOffset (ctx w)
    /\ exists new, calls w' = calls w ++ new /\ existsb isZoom new = false.
Proof.
  intros D T. destruct e as [t now|t|t now1 now2]; cbn [dispatch].
  - destruct t as [|p1 [|p2 [|p3 t]]]; [| |discriminate|].
    + rewrite start_other by (left; reflexivity).
      eexists. split; [reflexivity|]. cbn. repeat split; auto.
      exists []. rewrite app_nil_r. split; reflexivity.
    + destruct (start_single p1 now w)
        as (w' & E & R & _ & _ & _ & _ & Z & _ & _ & C).
      exists w'. split; [exact E|]. rewrite R. cbn [lastDistRef].
      repeat split; auto. eexists. split; [exact C | reflexivity].
    + rewrite start_other by (right; cbn; lia).
      eexists. split; [reflexivity|]. cbn. repeat split; auto.
      exists []. rewrite app_nil_r. split; reflexivity.
  - destruct (move_cases t w)
      as [(p & q & -> & L)|[(p1 & p2 & q1 & q2 & d & -> & L & D')|E]].
    + destruct (move_single p q w L)
        as (w' & E & R & _ & _ & Z & _ & _ & F).
      exists w'. split; [exact E|]. rewrite R. cbn [lastDistRef].
      repeat split; auto.
      destruct (String.eqb (state (ctx w)) "FORMED");
        destruct F as (_ & _ & C); eexists; (split; [exact C | reflexivity]).
    + congruence.
    + rewrite E. eexists. split; [reflexivity|]. cbn. repeat split; auto.
      exists []. rewrite app_nil_r. split; reflexivity.
  - rewrite end_spec. eexists. split; [reflexivity|]. cbn [refs lastDistRef].
    split; [rewrite D; destruct (List.length t =? 0)%nat; reflexivity|].
    cbn [ctx calls]. destruct (tapTest (refs w) now1).
    + split; [reflexivity|]. eexists. split; reflexivity.
    + split; [reflexivity|]. exists []. rewrite app_nil_r. split; reflexivity.
Qed.

(** X8.  The stored pinch distance is cleared when the last finger lifts,
    and while it is cleared (as it also is on mount) no zoom happens: over
    every sequence of events without a touch-start of exactly two points the
    handlers never call [setZoomOffset], the zoom offset keeps its value and
    the distance stays cleared.  A pinch never resumes against a distance
    from before the release. *)
Theorem X8_no_zoom_without_two_point_start es now1 now2 w :
  (exists w0,
     handleTouchEnd [] now1 now2 w = Ok (tt, w0)
     /\ lastDistRef (refs w0) = None)
  /\ (lastDistRef (refs w) = None ->
      forallb (fun e => negb (isTwoPointStart e)) es = true ->
      exists w' new,
        run es w = Ok (tt, w')
        /\ calls w' = calls w ++ new
        /\ existsb isZoom new = false
        /\ zoomOffset (ctx w') = zoomOffset (ctx w)
        /\ lastDistRef (refs w') = None).
Proof.
  split.
  - rewrite end_spec. eexists. split; reflexivity.
  - revert w. induction es as [|e es IH]; intros w D F.
    + exists w, []. rewrite app_nil_r. repeat split; auto.
    + cbn [forallb] in F. apply andb_true_iff in F as [Fe Fs].
      apply negb_true_iff in Fe.
      destruct (dispatch_without_distance e w D Fe)
        as (w1 & E1 & D1 & Z1 & n1 & C1 & N1).
      destruct (IH w1 D1 Fs) as (w' & n2 & E & C & N & Z & D').
      exists w', (n1 ++ n2). rewrite (run_cons _ _ _ _ E1).
      split; [exact E|]. split; [rewrite C, C1, app_assoc; reflexivity|].
      split; [rewrite existsb_app, N1, N; reflexivity|].
      split; [congruence | exact D'].
Qed.

Lemma X8_no_zoom_without_two_point_start_witness :
  exists w' new,
    run [TouchStart [Pt.mk 10 10] 5; TouchMove [Pt.mk 10 10; Pt.mk 90 10];
         TouchMove [Pt.mk 10 10; Pt.mk 300 10]]
        initialWorld = Ok (tt, w')
    /\ calls w' = new
    /\ existsb isZoom new = false
    /\ zoomOffset (ctx w') = 0
    /\ lastDistRef (refs w') = None.
Proof.
  destruct (X8_no_zoom_without_two_point_start
              [TouchStart [Pt.mk 10 10] 5;
               TouchMove [Pt.mk 10 10; Pt.mk 90 10];
               TouchMove [Pt.mk 10 10; Pt.mk 300 10]]
              0 0 initialWorld) as (_ & Quiet).
  exact (Quiet eq_refl eq_refl).
Defined.

(** ** No tap while dragging *)

Lemma dispatch_no_tap_while_dragging e w :
  isDraggingRef (refs w) = true ->
  isTouchStart e = false ->
  exists w' new,
    dispatch e w = Ok (tt, w')
    /\ calls w' = calls w ++ new
    /\ existsb isTap new = false
    /\ clickTrigger (ctx w') = clickTrigger (ctx w)
    /\ isDraggingRef (refs w') = true.
Proof.
  intros D T. destruct e as [t now|t|t now1 now2]; [discriminate| |];
    cbn [dispatch].
  - destruct (move_cases t w)
      as [(p & q & -> & L)|[(p1 & p2 & q1 & q2 & d & -> & L & Ld)|E0]].
    + destruct (move_single p q w L) as (w1 & E1 & R1 & _ & _ & _ & _ & K & F).
      exists w1.
      assert (D1 : isDraggingRef (refs w1) = true)
        by (rewrite R1; cbn [isDraggingRef]; rewrite D; apply orb_true_r).
      destruct (String.eqb (state (ctx w)) "FORMED");
        destruct F as (_ & _ & C); eexists;
        (split; [exact E1|]); (split; [exact C|]); repeat split; auto.
    + destruct (move_pinch p1 p2 q1 q2 d w L Ld)
        as (w1 & E1 & R1 & _ & _ & _ & _ & _ & _ & K & C).
      exists w1; eexists. split; [exact E1|]. split; [exact C|].
      rewrite R1. repeat split; auto.
    + rewrite E0. eexists; exists []. cbn. rewrite app_nil_r.
      repeat split; auto.
  - rewrite end_spec.
    assert (N : tapTest (refs w) now1 = false)
      by (unfold tapTest; rewrite D; reflexivity).
    rewrite N. eexists; exists []. cbn. rewrite app_nil_r.
    repeat split; auto.
Qed.

(** X9.  Once [isDragging] is true no tap is emitted until the next
    touch-start: over every sequence of touch-move and touch-end events the
    handlers never call [setClickTrigger], and [clickTrigger] keeps its
    value, whatever the timing and wherever the finger ends up, back on its
    landing point included. *)
Theorem X9_no_tap_while_dragging es w :
  isDraggingRef (refs w) = true ->
  forallb (fun e => negb (isTouchStart e)) es = true ->
  exists w' new,
    run es w = Ok (tt, w')
    /\ calls w' = calls w ++ new
    /\ existsb isTap new = false
    /\ clickTrigger (ctx w') = clickTrigger (ctx w).
Proof.
  revert w. induction es as [|e es IH]; intros w D F.
  - exists w, []. rewrite app_nil_r. repeat split; auto.
  - cbn [forallb] in F. apply andb_true_iff in F as [Fe Fs].
    apply negb_true_iff in Fe.
    destruct (dispatch_no_tap_while_dragging e w D Fe)
      as (w1 & n1 & E1 & C1 & N1 & K1 & D1).
    destruct (IH w1 D1 Fs) as (w' & n2 & E & C & N & K).
    exists w', (n1 ++ n2). rewrite (run_cons _ _ _ _ E1).
    split; [exact E|]. split; [rewrite C, C1, app_assoc; reflexivity|].
    split; [rewrite existsb_app, N1, N; reflexivity | congruence].
Qed.

Lemma X9_no_tap_while_dragging_witness :
  exists w' new,
    run [TouchMove [Pt.mk 100 100]; TouchEnd [] 50 50]
        (mkWorld (mkRefs [Pt.mk 103 100] None 0 (Some (Pt.mk 100 100)) true)
                 chaosCtx viewport [])
    = Ok (tt, w')
    /\ calls w' = new
    /\ existsb isTap new = false
    /\ clickTrigger (ctx w') = 0%Z.
Proof.
  apply (X9_no_tap_while_dragging
           [TouchMove [Pt.mk 100 100]; TouchEnd [] 50 50]
           (mkWorld (mkRefs [Pt.mk 103 100] None 0 (Some (Pt.mk 100 100))
                            true)
                    chaosCtx viewport []));
    reflexivity.
Defined.

End TouchInputExtra.

(** * Further properties of the share link and the upload *)

Module TreeCreatorExtra.
Import TreeCreator TreeCreatorSpec.
Local Open Scope string_scope.

(** ** Opening a share link *)

(** What mounting does on the page opened at a link with hexadecimal
    values, empty ones included. *)
Lemma mount_on_link loc h1 h2 h3 c0 :
  hasNone "?" (origin loc ++ pathname loc) = true ->
  hasNone "#" (origin loc ++ pathname loc) = true ->
  allChars isHexDigit h1 = true ->
  allChars isHexDigit h2 = true ->
  allChars isHexDigit h3 = true ->
  onMount (openAt loc (origin loc ++ pathname loc ++ "?c1=" ++ h1
                       ++ "&c2=" ++ h2 ++ "&c3=" ++ h3)) c0
  = if negb (h1 =? "") && negb (h2 =? "") && negb (h3 =? "")
    then mkComp (Some (mkTreeConfig (String "#" h1) (String "#" h2)
                                    (String "#" h3) None))
                true (shareUrl c0) (clipboard c0)
    else c0.
Proof.
  intros Q H A1 A2 A3.
  assert (S : searchOf (origin loc ++ pathname loc ++ "?c1=" ++ h1
                        ++ "&c2=" ++ h2 ++ "&c3=" ++ h3)
              = String "?" (linkQuery h1 h2 h3)).
  { unfold searchOf. rewrite <- append_assoc.
    change ("?c1=" ++ h1 ++ "&c2=" ++ h2 ++ "&c3=" ++ h3)
      with (String "?" (linkQuery h1 h2 h3)).
    rewrite queryOf_app by assumption.
    rewrite takeUntil_none by (apply linkQuery_no_hash; assumption).
    reflexivity. }
  unfold onMount, openAt. cbn [search]. rewrite S.
  rewrite params_of_linkQuery by assumption. reflexivity.
Qed.

Lemma hexDigits_inv s :
  hexDigits s = true -> (s =? "") = false /\ allChars isHexDigit s = true.
Proof.
  unfold hexDigits. rewrite andb_true_iff, negb_true_iff. tauto.
Qed.

(** X10.  The round trip through a share link normalizes the colours and is
    stable afterwards.  When each colour, with its first ['#'] removed, is a
    non-empty run of hexadecimal digits (so ["ff00aa"] as well as
    ["#ff00aa"]), the page opened at the link holds each colour as ['#']
    followed by those digits, with no photo URL; and sharing again from that
    page gives the very same link. *)
Theorem X10_round_trip_normalizes loc cfg c0 :
  hasNone "?" (origin loc ++ pathname loc) = true ->
  hasNone "#" (origin loc ++ pathname loc) = true ->
  hexDigits (replace "#" "" (primaryColor cfg)) = true ->
  hexDigits (replace "#" "" (accentColor cfg)) = true ->
  hexDigits (replace "#" "" (lightColor cfg)) = true ->
  let url := shareLink loc cfg in
  let page := openAt loc url in
  let opened := onMount page c0 in
  treeConfig opened
  = Some (mkTreeConfig ("#" ++ replace "#" "" (primaryColor cfg))
                       ("#" ++ replace "#" "" (accentColor cfg))
                       ("#" ++ replace "#" "" (lightColor cfg)) None)
  /\ isPanelOpen opened = true
  /\ shareUrl (generateShareLink page opened) = Some url.
Proof.
  intros Q H P A L url page opened.
  destruct (hexDigits_inv _ P) as (N1 & A1).
  destruct (hexDigits_inv _ A) as (N2 & A2).
  destruct (hexDigits_inv _ L) as (N3 & A3).
  assert (O : opened
              = mkComp (Some (mkTreeConfig
                                (String "#" (replace "#" "" (primaryColor cfg)))
                                (String "#" (replace "#" "" (accentColor cfg)))
                                (String "#" (replace "#" "" (lightColor cfg)))
                                None))
                       true (shareUrl c0) (clipboard c0)).
  { unfold opened, page, url, shareLink.
    rewrite mount_on_link by assumption.
    rewrite N1, N2, N3. reflexivity. }
  rewrite O. cbn [treeConfig isPanelOpen].
  split; [reflexivity|]. split; [reflexivity|].
  unfold generateShareLink. cbn [treeConfig shareUrl].
  unfold shareLink at 1.
  cbn [primaryColor accentColor lightColor origin pathname page openAt].
  rewrite !replace_hash. reflexivity.
Qed.

Lemma X10_round_trip_normalizes_witness :
  treeConfig
    (onMount (openAt (mkLocation "https://tree.example" "/" "")
                     "https://tree.example/?c1=ff00aa&c2=0B5345&c3=fff")
             (mkComp None false None None))
  = Some (mkTreeConfig "#ff00aa" "#0B5345" "#fff" None).
Proof.
  apply (X10_round_trip_normalizes
           (mkLocation "https://tree.example" "/" "")
           (mkTreeConfig "ff00aa" "#0B5345" "fff" (Some "blob:photo"))
           (mkComp None false None None));
    reflexivity.
Defined.

(** X11.  A colour that is empty once its ['#'] is removed (["#"] or [""])
    makes a link that loads nothing: the other two being hexadecimal, the
    link carries an empty parameter, and the page opened at it keeps the
    whole component state as it was. *)
Theorem X11_empty_colour_link_loads_nothing loc cfg c0 :
  hasNone "?" (origin loc ++ pathname loc) = true ->
  hasNone "#" (origin loc ++ pathname loc) = true ->
  allChars isHexDigit (replace "#" "" (primaryColor cfg)) = true ->
  allChars isHexDigit (replace "#" "" (accentColor cfg)) = true ->
  allChars isHexDigit (replace "#" "" (lightColor cfg)) = true ->
  replace "#" "" (primaryColor cfg) = ""
  \/ replace "#" "" (accentColor cfg) = ""
  \/ replace "#" "" (lightColor cfg) = "" ->
  onMount (openAt loc (shareLink loc cfg)) c0 = c0.
Proof.
  intros Q H A1 A2 A3 E. unfold shareLink.
  rewrite mount_on_link by assumption.
  destruct E as [E|[E|E]]; rewrite E; cbn [String.eqb negb andb];
    rewrite ?andb_false_r; reflexivity.
Qed.

Lemma X11_empty_colour_link_loads_nothing_witness :
  onMount (openAt (mkLocation "https://tree.example" "/" "")
                  (shareLink (mkLocation "https://tree.example" "/" "")
                             (mkTreeConfig "#ff00aa" "#" "#fff" None)))
          (mkComp None false None None)
  = mkComp None false None None.
Proof.
  apply (X11_empty_colour_link_loads_nothing
           (mkLocation "https://tree.example" "/" "")
           (mkTreeConfig "#ff00aa" "#" "#fff" None));
    try reflexivity.
  right; left; reflexivity.
Defined.


(** ** Reading the query *)

Lemma splitOn_joinWith piece pieces :
  forallb (hasNone "&") (piece :: pieces) = true ->
  splitOn "&" (joinWith "&" (piece :: pieces)) = piece :: pieces.
Proof.
  revert piece. induction pieces as [|next pieces IH]; intros piece F.
  - cbn [forallb] in F. apply andb_true_iff in F as [F _].
    cbn [joinWith]. apply splitOn_none, F.
  - cbn [forallb] in F. apply andb_true_iff in F as [F Fs].
    change (joinWith "&" (piece :: next :: pieces))
      with (piece ++ String "&" (joinWith "&" (next :: pieces))).
    rewrite splitOn_app by exact F. rewrite IH by exact Fs. reflexivity.
Qed.

Lemma nameValue_written n v :
  hasNone "=" n = true -> nameValue (n ++ "=" ++ v) = (n, v).
Proof.
  induction n as [|a n IH]; [reflexivity|]. cbn [hasNone allChars].
  rewrite andb_true_iff, negb_true_iff. intros [A N]. cbn [append nameValue].
  rewrite A. change (n ++ String "=" v) with (n ++ "=" ++ v).
  rewrite (IH N). reflexivity.
Qed.

Lemma written_not_empty n v : (n ++ "=" ++ v =? "") = false.
Proof. destruct n; reflexivity. Qed.

Lemma decode_plain s :
  hasNone "+" s = true -> hasNone "%" s = true -> decode s = s.
Proof.
  intros P C. unfold decode. rewrite plusToSpace_none by exact P.
  apply percentDecode_none, C.
Qed.

Lemma plainParam_inv nv :
  plainParam nv = true ->
  hasNone "&" (fst nv ++ "=" ++ snd nv) = true
  /\ hasNone "=" (fst nv) = true
  /\ decode (fst nv) = fst nv /\ decode (snd nv) = snd nv.
Proof.
  unfold plainParam, plainName, plainValue. rewrite !andb_true_iff.
  intros [[[[A E] P] C] [[A' P'] C']].
  split; [|split; [exact E | split; apply decode_plain; assumption]].
  unfold hasNone. rewrite !allChars_app.
  fold (hasNone "&" (fst nv)). fold (hasNone "&" (snd nv)).
  rewrite A, A'. reflexivity.
Qed.

Lemma read_pieces params :
  forallb plainParam params = true ->
  map (fun piece => let (n, v) := nameValue piece in (decode n, decode v))
      (filter (fun piece => negb (piece =? ""))
              (map (fun nv => fst nv ++ "=" ++ snd nv) params))
  = params.
Proof.
  induction params as [|[n v] l IH]; intros F; [reflexivity|].
  cbn [forallb] in F. apply andb_true_iff in F as [F Fs].
  destruct (plainParam_inv _ F) as (_ & E & Dn & Dv). cbn [fst snd] in *.
  cbn [map filter fst snd]. rewrite written_not_empty. cbn [negb map].
  rewrite nameValue_written by exact E. rewrite Dn, Dv, (IH Fs).
  reflexivity.
Qed.

(** Reading a written query gives back the parameters, in their order. *)
Lemma read_written_query params :
  forallb plainParam params = true ->
  URLSearchParams (String "?" (writeQuery params)) = params.
Proof.
  intros F. unfold URLSearchParams, writeQuery.
  destruct params as [|nv params]; [reflexivity|].
  rewrite <- (read_pieces (nv :: params) F) at 2.
  cbn [map]. rewrite splitOn_joinWith; [reflexivity|].
  change (forallb (hasNone "&")
            (map (fun nv => fst nv ++ "=" ++ snd nv) (nv :: params)) = true).
  rewrite forallb_forall in *. intros piece I.
  apply in_map_iff in I as (nv' & <- & I').
  apply plainParam_inv, F, I'.
Qed.

(** X12.  The loader finds its three parameters by name.  On a query of
    [name=value] pieces (names free of ['&'], ['='], ['+'], ['%'], values of
    ['&'], ['+'], ['%']), in any order and among any other parameters, it
    takes the first value written under each of [c1], [c2], [c3]; when all
    three exist and are non-empty it sets the colours ['#' + value], without
    checking that they are colours, drops the photo URL and opens the panel;
    otherwise it leaves the state alone. *)
Theorem X12_parameters_found_by_name params loc c0 :
  forallb plainParam params = true ->
  search loc = String "?" (writeQuery params) ->
  onMount loc c0
  = if truthy (get params "c1") && truthy (get params "c2")
       && truthy (get params "c3")
    then mkComp (Some (mkTreeConfig ("#" ++ toString (get params "c1"))
                                    ("#" ++ toString (get params "c2"))
                                    ("#" ++ toString (get params "c3"))
                                    None))
                true (shareUrl c0) (clipboard c0)
    else c0.
Proof.
  intros F S. unfold onMount. rewrite S, (read_written_query params F).
  reflexivity.
Qed.

Lemma X12_parameters_found_by_name_witness :
  onMount (mkLocation "https://tree.example" "/"
                      "?c3=fff&utm=mail&c1=ff00aa&c2=0B5345&c1=000000")
          (mkComp None false None None)
  = mkComp (Some (mkTreeConfig "#ff00aa" "#0B5345" "#fff" None))
           true None None.
Proof.
  apply (X12_parameters_found_by_name
           [("c3", "fff"); ("utm", "mail"); ("c1", "ff00aa");
            ("c2", "0B5345"); ("c1", "000000")]
           (mkLocation "https://tree.example" "/"
                       "?c3=fff&utm=mail&c1=ff00aa&c2=0B5345&c1=000000"));
    reflexivity.
Defined.

(** ** Uploading a photo *)



End TreeCreatorExtra.
